(** * HTTPX: the JSON formatter and the code generators of [httpx.c]

    A shallow embedding of the parts of [httpx.c] that turn data into text:
    [format_json], the five [generate_*_code] functions and the step of
    [configure_request] that adds a [Content-Type] header.

    Conventions.
    - A [char] buffer holding a NUL-terminated string is modelled by its
      content, a [string]; [strlen] is [String.length] and [s[i]] is
      [char_at s i], which reads the terminating NUL at [i = strlen s].
    - [stdout] is a [string]; [putchar] and [printf] append to it.
    - An [int] or [long] is a [Z].  No wrap-around is written out: the
      indent level of the formatter moves by one at most per character
      ([JsonFacts.indent_bounded]), and the header count stays within
      [MAX_HEADERS]. *)

From Stdlib Require Import ZArith Bool List Lia.
From Stdlib Require Import Strings.Ascii Strings.String Numbers.DecimalString.
Import ListNotations.

Local Open Scope string_scope.

(** ** Characters and text *)

(** The characters that cannot be written inside a string literal of this
    file are named after their C escapes. *)
Definition NUL : ascii := "000"%char.
Definition TAB : ascii := "009"%char.
Definition LF : ascii := "010"%char.
Definition CR : ascii := "013"%char.
Definition ESC : ascii := "027"%char.
Definition DQUOTE : ascii := "034"%char.
Definition BACKSLASH : ascii := "092"%char.

Definition str (c : ascii) : string := String c EmptyString.

Definition nl : string := str LF.
Definition dq : string := str DQUOTE.
Definition bs : string := str BACKSLASH.

(** [s[i]] for [i <= strlen s]. *)
Definition char_at (s : string) (i : nat) : ascii :=
  match String.get i s with
  | Some c => c
  | None => NUL
  end.

Fixpoint spaces (n : nat) : string :=
  match n with
  | O => ""
  | S k => String " " (spaces k)
  end.

(** [printf("%*s", w, "")]: the empty string padded to the field width [w];
    a negative width is the [-] flag followed by the width [-w], so the
    padding is [|w|] spaces either way. *)
Definition pad (w : Z) : string := spaces (Z.abs_nat w).

(** ** [format_json] *)

Module Json.

(** The locals of [format_json] and the text written so far. *)
Record state : Type := mkState {
  indent : Z;
  in_string : bool;
  prev_char : ascii;
  out : string
}.

Definition init : state :=
  {| indent := 0; in_string := false; prev_char := NUL; out := "" |}.

Definition putchar (c : ascii) (st : state) : state :=
  {| indent := indent st; in_string := in_string st;
     prev_char := prev_char st; out := out st ++ str c |}.

Definition printf (s : string) (st : state) : state :=
  {| indent := indent st; in_string := in_string st;
     prev_char := prev_char st; out := out st ++ s |}.

Definition set_indent (n : Z) (st : state) : state :=
  {| indent := n; in_string := in_string st;
     prev_char := prev_char st; out := out st |}.

Definition set_in_string (b : bool) (st : state) : state :=
  {| indent := indent st; in_string := b;
     prev_char := prev_char st; out := out st |}.

Definition set_prev_char (c : ascii) (st : state) : state :=
  {| indent := indent st; in_string := in_string st;
     prev_char := c; out := out st |}.

(** [c != ' ' && c != '\n' && c != '\r' && c != '\t'] *)
Definition not_blank (c : ascii) : bool :=
  negb (c =? " ")%char && negb (c =? LF)%char &&
  negb (c =? CR)%char && negb (c =? TAB)%char.

(** [printf("\n%*s", indent * 2, "")] *)
Definition newline_indent (st : state) : state :=
  printf (nl ++ pad (indent st * 2)) st.

(** The if/else-if chain of the loop body, lines 470-503. *)
Definition dispatch (json_str : string) (i : nat) (st : state) : state :=
  let c := char_at json_str i in
  if (c =? DQUOTE)%char && negb (prev_char st =? BACKSLASH)%char then
    putchar c (set_in_string (negb (in_string st)) st)
  else if in_string st then
    putchar c st
  else if (c =? "{")%char || (c =? "[")%char then
    let st := putchar c st in
    let st := set_indent (indent st + 1) st in
    if (i + 1 <? String.length json_str)%nat
       && negb (char_at json_str (i + 1) =? "}")%char
       && negb (char_at json_str (i + 1) =? "]")%char
    then newline_indent st
    else st
  else if (c =? "}")%char || (c =? "]")%char then
    let st := set_indent (indent st - 1) st in
    let st :=
      if negb (prev_char st =? "{")%char && negb (prev_char st =? "[")%char
      then newline_indent st
      else st in
    putchar c st
  else if (c =? ",")%char then
    newline_indent (putchar c st)
  else if (c =? ":")%char then
    printf ": " st
  else if not_blank c then
    putchar c st
  else st.

(** One iteration of the loop, lines 468-507. *)
Definition iteration (json_str : string) (i : nat) (st : state) : state :=
  let c := char_at json_str i in
  let st := dispatch json_str i st in
  if not_blank c then set_prev_char c st else st.

(** The state at the head of the loop when the index is [i]: iterations
    [0 .. i-1] have run. *)
Fixpoint state_at (json_str : string) (i : nat) : state :=
  match i with
  | O => init
  | S k => iteration json_str k (state_at json_str k)
  end.

(** The [for] loop as a transition system on the index and the locals: a
    step is taken while [i < strlen(json_str)], and there is none after. *)
Inductive step (json_str : string) : nat * state -> nat * state -> Prop :=
| step_iteration i st :
    (i < String.length json_str)%nat ->
    step json_str (i, st) (S i, iteration json_str i st).

Inductive run (json_str : string) : nat * state -> nat * state -> Prop :=
| run_here c : run json_str c c
| run_step c1 c2 c3 :
    step json_str c1 c2 -> run json_str c2 c3 -> run json_str c1 c3.

Definition halted (json_str : string) (c : nat * state) : Prop :=
  forall c', ~ step json_str c c'.

(** The loop leaves at [i = strlen json_str]; the closing [printf("\n")]. *)
Definition format_json (json_str : string) : string :=
  out (printf nl (state_at json_str (String.length json_str))).

End Json.


(** ** The request and the program state *)

Definition MAX_HEADERS : Z := 50.

Definition COLOR_RESET : string := str ESC ++ "[0m".
Definition COLOR_GREEN : string := str ESC ++ "[32m".
Definition COLOR_YELLOW : string := str ESC ++ "[33m".

(** [struct Request].  [headers] holds the slots of the array from index 0;
    a slot the list does not reach is an empty string, as in the
    zero-initialised [last_request] of [main]. *)
Record Request : Type := mkRequest {
  url : string;
  method : string;
  headers : list string;
  header_count : Z;
  body : string;
  follow_redirects : Z;
  verbose : Z;
  timeout : Z;
  auth : string
}.

(** [req->headers[i]] *)
Definition header_at (req : Request) (i : nat) : string :=
  nth i (headers req) "".

(** The headers in use, [headers[0 .. header_count-1]], in order. *)
Definition header_list (req : Request) : list string :=
  map (header_at req) (seq 0 (Z.to_nat (header_count req))).

(** What a function of the program can touch: the single [last_request] of
    [main], which every [Request *req] points to, and the text written to
    the standard output. *)
Record World : Type := mkWorld {
  last_request : Request;
  stdout : string
}.

Definition prog : Type := World -> World.

Definition skip : prog := fun w => w.

Definition printf (s : string) : prog :=
  fun w => {| last_request := last_request w; stdout := stdout w ++ s |}.

Definition andthen (p q : prog) : prog := fun w => q (p w).

Notation "p ;; q" := (andthen p q) (at level 61, right associativity).

(** Reading through the pointer [req] at this point of the run. *)
Definition with_req (k : Request -> prog) : prog :=
  fun w => k (last_request w) w.

Definition when (c : bool) (p : prog) : prog := if c then p else skip.

(** [for(int i = 0; i < req->header_count; i++) body]: the bound is read
    from the request before every iteration.  The fuel is the bound on
    entry, which is the number of iterations as long as the body leaves the
    bound alone. *)
Fixpoint for_headers_from (fuel i : nat) (body : nat -> prog) (w : World) : World :=
  match fuel with
  | O => w
  | S fuel' =>
      if (Z.of_nat i <? header_count (last_request w))%Z
      then for_headers_from fuel' (S i) body (body i w)
      else w
  end.

Definition for_headers (body : nat -> prog) : prog :=
  fun w => for_headers_from (Z.to_nat (header_count (last_request w))) 0 body w.

(** The text a program writes for a request, starting from an empty output. *)
Definition output (p : prog) (req : Request) : string :=
  stdout (p {| last_request := req; stdout := "" |}).

(** ** C library functions on strings *)

(** [strchr(s, c)] as the offset of the first [c] in [s], if any. *)
Fixpoint strchr (s : string) (c : ascii) : option nat :=
  match s with
  | EmptyString => None
  | String a r =>
      if (a =? c)%char then Some O
      else match strchr r c with
           | Some k => Some (S k)
           | None => None
           end
  end.

(** The string read at [buf] once [buf[k]] has been set to NUL. *)
Definition cut_at (k : nat) (buf : string) : string := substring 0 k buf.

(** The string read at [buf + k]. *)
Definition from (k : nat) (buf : string) : string :=
  substring k (String.length buf - k) buf.

(** [while( *value == ' ') value++;] *)
Fixpoint skip_spaces (s : string) : string :=
  match s with
  | String a r => if (a =? " ")%char then skip_spaces r else s
  | EmptyString => s
  end.

(** [strlen(s) > 0] *)
Definition nonempty (s : string) : bool :=
  match s with
  | EmptyString => false
  | String _ _ => true
  end.

(** [%ld] *)
Definition print_long (n : Z) : string := NilZero.string_of_int (Z.to_int n).

(** [tolower] in the C locale. *)
Definition tolower (c : ascii) : ascii :=
  let n := nat_of_ascii c in
  if ((65 <=? n) && (n <=? 90))%nat then ascii_of_nat (n + 32) else c.

Definition rest (s : string) : string :=
  match s with
  | EmptyString => EmptyString
  | String _ r => r
  end.

(** [strncasecmp(s1, s2, n)]: the difference of the first pair of characters
    that differ after [tolower], within the first [n] characters and up to
    the end of the shorter string; 0 when there is none. *)
Fixpoint strncasecmp (s1 s2 : string) (n : nat) : Z :=
  match n with
  | O => 0
  | S k =>
      let c1 := tolower (char_at s1 0) in
      let c2 := tolower (char_at s2 0) in
      if (c1 =? c2)%char
      then if (c1 =? NUL)%char then 0 else strncasecmp (rest s1) (rest s2) k
      else Z.of_nat (nat_of_ascii c1) - Z.of_nat (nat_of_ascii c2)
  end.

(** ** The code generators *)

(** The block every generator but the curl one runs on a header:
    [strcpy(header_copy, req->headers[i]); colon = strchr(header_copy, ':');]
    and, when there is a colon, [*colon = '\0'], [value = colon + 1] moved
    past the spaces.  The result is the pair of strings then read at
    [header_copy] and at [value]; [None] when there is no colon. *)
Definition split_header (header : string) : option (string * string) :=
  let header_copy := header in
  match strchr header_copy ":" with
  | Some colon =>
      Some (cut_at colon header_copy, skip_spaces (from (colon + 1) header_copy))
  | None => None
  end.

(** Lines 101-103 of [generate_curl_code]. *)
Definition curl_headers : prog :=
  for_headers (fun i => with_req (fun req =>
    printf (" " ++ bs ++ nl ++ "  -H '" ++ header_at req i ++ "'"))).

Definition generate_curl_code : prog :=
  printf (nl ++ COLOR_GREEN ++ "=== cURL ===" ++ COLOR_RESET ++ nl) ;;
  with_req (fun req =>
    printf ("curl -X " ++ method req ++ " '" ++ url req ++ "'")) ;;
  curl_headers ;;
  with_req (fun req =>
    when (nonempty (body req))
      (printf (" " ++ bs ++ nl ++ "  -d '" ++ body req ++ "'"))) ;;
  with_req (fun req =>
    when (negb (follow_redirects req =? 0)%Z)
      (printf (" " ++ bs ++ nl ++ "  -L"))) ;;
  with_req (fun req =>
    when (timeout req >? 0)%Z
      (printf (" " ++ bs ++ nl ++ "  --max-time " ++ print_long (timeout req)))) ;;
  printf (nl ++ nl).

(** The body of the header loop of the JavaScript and the Python generator. *)
Definition quoted_pair (i : nat) : prog :=
  with_req (fun req =>
    match split_header (header_at req i) with
    | Some (header_copy, value) =>
        printf ("    '" ++ header_copy ++ "': '" ++ value ++ "'") ;;
        with_req (fun req =>
          when (Z.of_nat i <? header_count req - 1)%Z (printf ",")) ;;
        printf nl
    | None => skip
    end).

(** Lines 124-140 of [generate_javascript_code]. *)
Definition javascript_headers : prog :=
  with_req (fun req =>
    when (header_count req >? 0)%Z
      (printf ("  headers: {" ++ nl) ;;
       for_headers quoted_pair ;;
       printf ("  }," ++ nl))).

Definition generate_javascript_code : prog :=
  printf (COLOR_GREEN ++ "=== JavaScript (Fetch API) ===" ++ COLOR_RESET ++ nl) ;;
  with_req (fun req => printf ("fetch('" ++ url req ++ "', {" ++ nl)) ;;
  with_req (fun req => printf ("  method: '" ++ method req ++ "'," ++ nl)) ;;
  javascript_headers ;;
  with_req (fun req =>
    when (nonempty (body req))
      (with_req (fun req =>
         if (char_at (body req) 0 =? "{")%char || (char_at (body req) 0 =? "[")%char
         then printf ("  body: JSON.stringify(" ++ body req ++ ")" ++ nl)
         else printf ("  body: '" ++ body req ++ "'" ++ nl)))) ;;
  printf ("})" ++ nl) ;;
  printf ("  .then(response => response.json())" ++ nl) ;;
  printf ("  .then(data => console.log(data))" ++ nl) ;;
  printf ("  .catch(error => console.error('Error:', error));" ++ nl ++ nl).

(** The chain of [strcmp] that picks the call of the Python and the Rust
    generator. *)
Definition call_name (m : string) : string :=
  if (m =? "GET")%string then "get"
  else if (m =? "POST")%string then "post"
  else if (m =? "PUT")%string then "put"
  else if (m =? "DELETE")%string then "delete"
  else "request".

(** Lines 162-178 of [generate_python_code]. *)
Definition python_headers : prog :=
  with_req (fun req =>
    when (header_count req >? 0)%Z
      (printf ("headers = {" ++ nl) ;;
       for_headers quoted_pair ;;
       printf ("}" ++ nl ++ nl))).

Definition generate_python_code : prog :=
  printf (COLOR_GREEN ++ "=== Python (requests) ===" ++ COLOR_RESET ++ nl) ;;
  printf ("import requests" ++ nl ++ "import json" ++ nl ++ nl) ;;
  with_req (fun req => printf ("url = '" ++ url req ++ "'" ++ nl)) ;;
  python_headers ;;
  with_req (fun req =>
    when (nonempty (body req))
      (printf ("data = '''" ++ body req ++ "'''" ++ nl ++ nl))) ;;
  with_req (fun req =>
    printf ("response = requests." ++ call_name (method req) ++ "(url")) ;;
  with_req (fun req =>
    when (header_count req >? 0)%Z (printf ", headers=headers")) ;;
  with_req (fun req =>
    when (nonempty (body req)) (printf ", data=data")) ;;
  printf (")" ++ nl) ;;
  printf ("print(response.json())" ++ nl ++ nl).

(** The body of the header loop of the Rust and the Java generator, which
    differ in the indentation only. *)
Definition header_call (margin : string) (i : nat) : prog :=
  with_req (fun req =>
    match split_header (header_at req i) with
    | Some (header_copy, value) =>
        printf (margin ++ ".header(" ++ dq ++ header_copy ++ dq ++ ", "
                ++ dq ++ value ++ dq ++ ")" ++ nl)
    | None => skip
    end).

(** Lines 213-223 of [generate_rust_code]. *)
Definition rust_headers : prog := for_headers (header_call "        ").

Definition generate_rust_code : prog :=
  printf (COLOR_GREEN ++ "=== Rust (reqwest) ===" ++ COLOR_RESET ++ nl) ;;
  printf ("use reqwest;" ++ nl ++ nl) ;;
  printf ("#[tokio::main]" ++ nl) ;;
  printf ("async fn main() -> Result<(), Box<dyn std::error::Error>> {" ++ nl) ;;
  printf ("    let client = reqwest::Client::new();" ++ nl) ;;
  with_req (fun req =>
    when (nonempty (body req))
      (printf ("    let body = r#" ++ dq ++ body req ++ dq ++ "#;" ++ nl ++ nl))) ;;
  with_req (fun req =>
    printf ("    let response = client." ++ call_name (method req)
            ++ "(" ++ dq ++ url req ++ dq ++ ")" ++ nl)) ;;
  rust_headers ;;
  with_req (fun req =>
    when (nonempty (body req)) (printf ("        .body(body)" ++ nl))) ;;
  printf ("        .send()" ++ nl) ;;
  printf ("        .await?;" ++ nl ++ nl) ;;
  printf ("    let body = response.text().await?;" ++ nl) ;;
  printf ("    println!(" ++ dq ++ "{}" ++ dq ++ ", body);" ++ nl) ;;
  printf ("    Ok(())" ++ nl) ;;
  printf ("}" ++ nl ++ nl).

(** The chain of [strcmp] of the Java generator, taken when there is a
    body. *)
Definition publisher_name (m : string) : string :=
  if (m =? "GET")%string then "GET"
  else if (m =? "POST")%string then "POST"
  else if (m =? "PUT")%string then "PUT"
  else if (m =? "DELETE")%string then "DELETE"
  else "method".

(** Lines 256-266 of [generate_java_code]. *)
Definition java_headers : prog := for_headers (header_call "            ").

Definition generate_java_code : prog :=
  printf (COLOR_GREEN ++ "=== Java (HttpClient) ===" ++ COLOR_RESET ++ nl) ;;
  printf ("import java.net.URI;" ++ nl) ;;
  printf ("import java.net.http.HttpClient;" ++ nl) ;;
  printf ("import java.net.http.HttpRequest;" ++ nl) ;;
  printf ("import java.net.http.HttpResponse;" ++ nl ++ nl) ;;
  printf ("public class HttpExample {" ++ nl) ;;
  printf ("    public static void main(String[] args) throws Exception {" ++ nl) ;;
  printf ("        HttpClient client = HttpClient.newHttpClient();" ++ nl) ;;
  with_req (fun req =>
    when (nonempty (body req))
      (printf ("        String jsonBody = " ++ dq ++ dq ++ dq ++ nl) ;;
       with_req (fun req => printf ("            " ++ body req ++ nl)) ;;
       printf ("            " ++ dq ++ dq ++ dq ++ ";" ++ nl ++ nl))) ;;
  printf ("        HttpRequest.Builder builder = HttpRequest.newBuilder()" ++ nl) ;;
  with_req (fun req =>
    printf ("            .uri(URI.create(" ++ dq ++ url req ++ dq ++ "))" ++ nl)) ;;
  java_headers ;;
  with_req (fun req =>
    if nonempty (body req)
    then printf ("            ." ++ publisher_name (method req)
                 ++ "(HttpRequest.BodyPublishers.ofString(jsonBody));" ++ nl)
    else printf ("            ." ++ method req
                 ++ "(HttpRequest.BodyPublishers.noBody());" ++ nl)) ;;
  printf (nl ++ "        HttpRequest request = builder.build();" ++ nl) ;;
  printf ("        HttpResponse<String> response = client.send(request," ++ nl) ;;
  printf ("            HttpResponse.BodyHandlers.ofString());" ++ nl) ;;
  printf ("        System.out.println(response.body());" ++ nl) ;;
  printf ("    }" ++ nl) ;;
  printf ("}" ++ nl ++ nl).

(** ** The [Content-Type] step of [configure_request] *)

(** [strcpy(req->headers[i], v)] *)
Fixpoint set_slot (i : nat) (v : string) (slots : list string) : list string :=
  match i, slots with
  | O, [] => [v]
  | O, _ :: t => v :: t
  | S k, [] => EmptyString :: set_slot k v []
  | S k, h :: t => h :: set_slot k v t
  end.

(** [req] with [v] copied into header slot [i]. *)
Definition with_header (i : nat) (v : string) (req : Request) : Request :=
  {| url := url req; method := method req;
     headers := set_slot i v (headers req);
     header_count := header_count req;
     body := body req; follow_redirects := follow_redirects req;
     verbose := verbose req; timeout := timeout req; auth := auth req |}.

Definition store_header (i : nat) (v : string) : prog :=
  fun w =>
    {| last_request := with_header i v (last_request w); stdout := stdout w |}.

(** [req->header_count++] *)
Definition incr_header_count : prog :=
  fun w =>
    let req := last_request w in
    {| last_request :=
         {| url := url req; method := method req;
            headers := headers req;
            header_count := header_count req + 1;
            body := body req; follow_redirects := follow_redirects req;
            verbose := verbose req; timeout := timeout req; auth := auth req |};
       stdout := stdout w |}.

(** The loop that sets [has_content_type], with its [break]. *)
Fixpoint has_content_type_from (req : Request) (fuel i : nat) : bool :=
  match fuel with
  | O => false
  | S fuel' =>
      if (strncasecmp (header_at req i) "Content-Type:" 13 =? 0)%Z then true
      else has_content_type_from req fuel' (S i)
  end.

(** Lines 552-566 of [configure_request], run after [read_multiline_body]
    has filled [req->body]. *)
Definition add_content_type : prog :=
  with_req (fun req =>
    when ((char_at (body req) 0 =? "{")%char || (char_at (body req) 0 =? "[")%char)
      (with_req (fun req =>
         let has_content_type :=
           has_content_type_from req (Z.to_nat (header_count req)) 0 in
         when (negb has_content_type && (header_count req <? MAX_HEADERS)%Z)
           (with_req (fun req =>
              store_header (Z.to_nat (header_count req))
                           "Content-Type: application/json") ;;
            incr_header_count ;;
            printf (COLOR_YELLOW
                    ++ "[i] Auto-added Content-Type: application/json header"
                    ++ COLOR_RESET ++ nl))))).

(** ** Vocabulary of the properties *)

(** [t] occurs in [s]. *)
Definition occurs (t s : string) : Prop :=
  exists pre post, s = pre ++ t ++ post.

Fixpoint starts_with (t s : string) : bool :=
  match t, s with
  | EmptyString, _ => true
  | String a t', String b s' => (a =? b)%char && starts_with t' s'
  | String _ _, EmptyString => false
  end.

Fixpoint contains (t s : string) : bool :=
  starts_with t s ||
  match s with
  | EmptyString => false
  | String _ s' => contains t s'
  end.

(** The texts of a list, one after the other. *)
Definition flat (l : list string) : string := fold_right append "" l.

Fixpoint lower (s : string) : string :=
  match s with
  | EmptyString => EmptyString
  | String a r => String (tolower a) (lower r)
  end.

(** The key of a header, the text before its first colon, reads [p] in any
    mix of cases. *)
Definition key_reads (p h : string) : Prop :=
  match strchr h ":" with
  | Some k => lower (substring 0 k h) = lower p
  | None => False
  end.

(** A program that only writes: it leaves the request alone, and what it
    appends to the output depends on the request only. *)
Definition printer (p : prog) : Prop :=
  forall w, p w = printf (output p (last_request w)) w.

Module Spec.
Import Json.

(** The last character before index [i] that is not a blank, NUL when there
    is none. *)
Fixpoint last_visible (s : string) (i : nat) : ascii :=
  match i with
  | O => NUL
  | S k => if not_blank (char_at s k) then char_at s k else last_visible s k
  end.

(** The rule for the double quote as the specification words it: at a double
    quote, the flag flips exactly when the character just before it is not a
    backslash. *)
Definition quote_rule_as_stated (s : string) (i : nat) : Prop :=
  (i < String.length s)%nat ->
  char_at s i = DQUOTE ->
  (in_string (state_at s (S i)) = negb (in_string (state_at s i))
   <-> ~ ((0 < i)%nat /\ char_at s (i - 1) = BACKSLASH)).

Definition matching_close (c : ascii) : ascii :=
  if (c =? "{")%char then "}"%char else "]"%char.

(** The rule for an opening bracket as the specification words it: the
    bracket, then a newline and as many double spaces as the raised level,
    unless the next character is the matching closing bracket. *)
Definition open_rule_as_stated (s : string) (i : nat) : Prop :=
  (i < String.length s)%nat ->
  char_at s i = "{"%char \/ char_at s i = "["%char ->
  in_string (state_at s i) = false ->
  indent (state_at s (S i)) = (indent (state_at s i) + 1)%Z /\
  out (state_at s (S i)) =
    out (state_at s i) ++ str (char_at s i) ++
    (if (S i <? String.length s)%nat
        && (char_at s (S i) =? matching_close (char_at s i))%char
     then ""
     else nl ++ spaces (2 * Z.to_nat (indent (state_at s (S i))))).

(** The method rule as the specification words it. *)
Definition patch_rule_as_stated (req : Request) : Prop :=
  method req = "PATCH" ->
  occurs "requests.request(" (output generate_python_code req) /\
  occurs ".request(" (output generate_rust_code req) /\
  occurs "PATCH" (output generate_curl_code req) /\
  occurs "PATCH" (output generate_java_code req).

(** A header whose key, the text before its first colon, is [Content-Type]
    in any mix of cases. *)
Definition names_content_type (header : string) : bool :=
  match split_header header with
  | Some (key, _) => (lower key =? "content-type")%string
  | None => false
  end.

Definition opens_json (c : ascii) : bool :=
  (c =? "{")%char || (c =? "[")%char.

Definition first_non_space (s : string) : ascii := char_at (skip_spaces s) 0.

Definition CONTENT_TYPE_JSON : string := "Content-Type: application/json".

(** The [Content-Type] rule as the specification words it. *)
Definition content_type_rule_as_stated (req : Request) : Prop :=
  let req' := last_request (add_content_type {| last_request := req; stdout := "" |}) in
  body req <> "" ->
  if opens_json (first_non_space (body req))
     && negb (existsb names_content_type (header_list req))
  then header_list req' = (header_list req ++ [CONTENT_TYPE_JSON])%list
  else header_list req' = header_list req.

End Spec.

(** ** More of the program *)

Definition COLOR_BOLD : string := str ESC ++ "[1m".
Definition COLOR_RED : string := str ESC ++ "[31m".
Definition COLOR_MAGENTA : string := str ESC ++ "[35m".
Definition COLOR_CYAN : string := str ESC ++ "[36m".

(** The characters of a text that are not blanks, in order. *)
Fixpoint visible (s : string) : string :=
  match s with
  | EmptyString => EmptyString
  | String a r => if Json.not_blank a then String a (visible r) else visible r
  end.

(** Every character of [s] passes the test [p]. *)
Fixpoint all_chars (p : ascii -> bool) (s : string) : bool :=
  match s with
  | EmptyString => true
  | String a r => p a && all_chars p r
  end.

(** The characters [format_json] tests for before its whitespace test. *)
Definition json_mark (c : ascii) : bool :=
  (c =? DQUOTE)%char || (c =? "{")%char || (c =? "[")%char
  || (c =? "}")%char || (c =? "]")%char || (c =? ",")%char || (c =? ":")%char.


(** One row of a menu box: the border colour, the bar, the label, the bar. *)
Definition menu_row (colour label : string) : string :=
  colour ++ "│" ++ COLOR_RESET ++ label ++ colour ++ "│" ++ COLOR_RESET ++ nl.

(** [generate_code_menu], with [choice] the number that [scanf] has left in
    the local of that name; the [switch] is written as the chain of its
    tests. *)
Definition generate_code_menu (choice : Z) : prog :=
  printf (nl ++ COLOR_MAGENTA
          ++ "┌─ Generate Code ─────────────────────────────────┐"
          ++ COLOR_RESET ++ nl) ;;
  printf (menu_row COLOR_MAGENTA "  1. cURL                                        ") ;;
  printf (menu_row COLOR_MAGENTA "  2. JavaScript (Fetch)                          ") ;;
  printf (menu_row COLOR_MAGENTA "  3. Python (requests)                           ") ;;
  printf (menu_row COLOR_MAGENTA "  4. Rust (reqwest)                              ") ;;
  printf (menu_row COLOR_MAGENTA "  5. Java (HttpClient)                           ") ;;
  printf (menu_row COLOR_MAGENTA "  6. All Languages                               ") ;;
  printf (COLOR_MAGENTA
          ++ "└─────────────────────────────────────────────────┘"
          ++ COLOR_RESET ++ nl) ;;
  printf (nl ++ "Select language: ") ;;
  if (choice =? 1)%Z then generate_curl_code
  else if (choice =? 2)%Z then generate_javascript_code
  else if (choice =? 3)%Z then generate_python_code
  else if (choice =? 4)%Z then generate_rust_code
  else if (choice =? 5)%Z then generate_java_code
  else if (choice =? 6)%Z then
    generate_curl_code ;;
    generate_javascript_code ;;
    generate_python_code ;;
    generate_rust_code ;;
    generate_java_code
  else printf (COLOR_RED ++ "[!] Invalid choice" ++ COLOR_RESET ++ nl).

Definition view_request : prog :=
  printf (nl ++ COLOR_CYAN ++ "=== Last Request ===" ++ COLOR_RESET ++ nl) ;;
  with_req (fun req =>
    printf (COLOR_BOLD ++ "URL:" ++ COLOR_RESET ++ " " ++ url req ++ nl)) ;;
  with_req (fun req =>
    printf (COLOR_BOLD ++ "Method:" ++ COLOR_RESET ++ " " ++ method req ++ nl)) ;;
  with_req (fun req =>
    when (header_count req >? 0)%Z
      (printf (COLOR_BOLD ++ "Headers:" ++ COLOR_RESET ++ nl) ;;
       for_headers (fun i => with_req (fun req =>
         printf ("  " ++ header_at req i ++ nl))))) ;;
  with_req (fun req =>
    when (nonempty (body req))
      (printf (COLOR_BOLD ++ "Body:" ++ COLOR_RESET ++ nl ++ body req ++ nl))) ;;
  with_req (fun req =>
    printf (COLOR_BOLD ++ "Follow Redirects:" ++ COLOR_RESET ++ " "
            ++ (if (follow_redirects req =? 0)%Z then "No" else "Yes") ++ nl)) ;;
  with_req (fun req =>
    printf (COLOR_BOLD ++ "Timeout:" ++ COLOR_RESET ++ " "
            ++ print_long (timeout req) ++ " seconds" ++ nl)) ;;
  printf nl.

(** The key and value pairs of the headers of a list that have a colon, in
    order. *)
Fixpoint parsed (hs : list string) : list (string * string) :=
  match hs with
  | [] => []
  | h :: t =>
      match split_header h with
      | Some kv => kv :: parsed t
      | None => parsed t
      end
  end.

(** ** Reading the request from the standard input *)

Definition MAX_HEADER_LEN : nat := 512.
Definition MAX_URL_LEN : nat := 2048.
Definition MAX_BODY_LEN : Z := 16384.

(** The string held by a buffer that was filled with these characters: it
    ends before the first NUL. *)
Fixpoint c_string (chars : string) : string :=
  match chars with
  | EmptyString => EmptyString
  | String a r => if (a =? NUL)%char then EmptyString else String a (c_string r)
  end.

(** At most [n] characters of the input, up to and with the first newline;
    and the input that is left. *)
Fixpoint take_line (n : nat) (input : string) : string * string :=
  match n, input with
  | S k, String a r =>
      if (a =? LF)%char then (str a, r)
      else let (line, more) := take_line k r in (String a line, more)
  | _, _ => (EmptyString, input)
  end.

(** [fgets(buf, size, stdin)] for [size >= 2]: [None] at the end of the
    input, where the buffer is more as it is; otherwise the string now in
    the buffer and the input that is left. *)
Definition fgets (size : nat) (input : string) : option (string * string) :=
  match input with
  | EmptyString => None
  | String _ _ =>
      let (line, more) := take_line (size - 1) input in
      Some (c_string line, more)
  end.

(** The program state with the input not yet read. *)
Record Console : Type := mkConsole {
  world : World;
  stdin : string
}.

Definition request (c : Console) : Request := last_request (world c).

Definition say (s : string) (c : Console) : Console :=
  {| world := printf s (world c); stdin := stdin c |}.

Definition update (f : Request -> Request) (c : Console) : Console :=
  {| world := {| last_request := f (request c); stdout := stdout (world c) |};
     stdin := stdin c |}.

Definition run_prog (p : prog) (c : Console) : Console :=
  {| world := p (world c); stdin := stdin c |}.

(** [fgets(buf, size, stdin)] with its result ignored: the string in the
    buffer afterwards, which is the old one at the end of the input. *)
Definition read (size : nat) (buf : string) (c : Console) : string * Console :=
  match fgets size (stdin c) with
  | Some (line, more) => (line, {| world := world c; stdin := more |})
  | None => (buf, c)
  end.

(** [s[strcspn(s, "\n")] = 0] *)
Definition cut_newline (s : string) : string :=
  match strchr s LF with
  | Some k => cut_at k s
  | None => s
  end.

(** The loop of lines 526-530 on one character. *)
Definition upcase_char (c : ascii) : ascii :=
  let n := nat_of_ascii c in
  if ((97 <=? n) && (n <=? 122))%nat then ascii_of_nat (n - 32) else c.

Fixpoint upcase (s : string) : string :=
  match s with
  | EmptyString => EmptyString
  | String a r => String (upcase_char a) (upcase r)
  end.

(** [input[0] == 'y' || input[0] == 'Y'] *)
Definition says_yes (input : string) : bool :=
  (char_at input 0 =? "y")%char || (char_at input 0 =? "Y")%char.

(** [input[0] != 'n' && input[0] != 'N'] *)
Definition not_no (input : string) : bool :=
  negb (char_at input 0 =? "n")%char && negb (char_at input 0 =? "N")%char.

Definition isspace (c : ascii) : bool :=
  let n := nat_of_ascii c in
  (n =? 32)%nat || ((9 <=? n) && (n <=? 13))%nat.

Definition isdigit (c : ascii) : bool :=
  let n := nat_of_ascii c in ((48 <=? n) && (n <=? 57))%nat.

Fixpoint skip_isspace (s : string) : string :=
  match s with
  | String a r => if isspace a then skip_isspace r else s
  | EmptyString => s
  end.

Fixpoint digits_value (acc : Z) (s : string) : Z :=
  match s with
  | String a r =>
      if isdigit a
      then digits_value (acc * 10 + (Z.of_nat (nat_of_ascii a) - 48))%Z r
      else acc
  | EmptyString => acc
  end.

(** [atol]: blanks, a sign, digits; as [strtol] does, a value outside of
    [long] is brought to the nearest bound. *)
Definition atol (s : string) : Z :=
  let s := skip_isspace s in
  let v :=
    match s with
    | String "-" r => (- digits_value 0 r)%Z
    | String "+" r => digits_value 0 r
    | _ => digits_value 0 s
    end in
  Z.max (- 2 ^ 63)%Z (Z.min (2 ^ 63 - 1)%Z v).

Definition set_url (v : string) (req : Request) : Request :=
  {| url := v; method := method req; headers := headers req;
     header_count := header_count req; body := body req;
     follow_redirects := follow_redirects req; verbose := verbose req;
     timeout := timeout req; auth := auth req |}.

Definition set_method (v : string) (req : Request) : Request :=
  {| url := url req; method := v; headers := headers req;
     header_count := header_count req; body := body req;
     follow_redirects := follow_redirects req; verbose := verbose req;
     timeout := timeout req; auth := auth req |}.

Definition set_header_count (v : Z) (req : Request) : Request :=
  {| url := url req; method := method req; headers := headers req;
     header_count := v; body := body req;
     follow_redirects := follow_redirects req; verbose := verbose req;
     timeout := timeout req; auth := auth req |}.

Definition set_body (v : string) (req : Request) : Request :=
  {| url := url req; method := method req; headers := headers req;
     header_count := header_count req; body := v;
     follow_redirects := follow_redirects req; verbose := verbose req;
     timeout := timeout req; auth := auth req |}.

Definition set_follow_redirects (v : Z) (req : Request) : Request :=
  {| url := url req; method := method req; headers := headers req;
     header_count := header_count req; body := body req;
     follow_redirects := v; verbose := verbose req;
     timeout := timeout req; auth := auth req |}.

Definition set_verbose (v : Z) (req : Request) : Request :=
  {| url := url req; method := method req; headers := headers req;
     header_count := header_count req; body := body req;
     follow_redirects := follow_redirects req; verbose := v;
     timeout := timeout req; auth := auth req |}.

Definition set_timeout (v : Z) (req : Request) : Request :=
  {| url := url req; method := method req; headers := headers req;
     header_count := header_count req; body := body req;
     follow_redirects := follow_redirects req; verbose := verbose req;
     timeout := v; auth := auth req |}.

(** *** [read_multiline_body] *)

(** Arithmetic of [size_t], 64 bits wide. *)
Definition size_sub (a b : Z) : Z := ((a - b) mod 2 ^ 64)%Z.
Definition size_add (a b : Z) : Z := ((a + b) mod 2 ^ 64)%Z.

(** [if(len > 0 && line[len-1] == c) { line[len-1] = '\0'; len--; }] *)
Fixpoint chop (c : ascii) (line : string) : string :=
  match line with
  | EmptyString => EmptyString
  | String a EmptyString => if (a =? c)%char then EmptyString else line
  | String a r => String a (chop c r)
  end.

(** The loop of [read_multiline_body].  [body] is the text written to the
    buffer so far and [total] its length; each iteration that goes on has
    taken at least one character from the input, which bounds the fuel. *)
Fixpoint read_body_lines (fuel : nat) (max_len : Z) (body : string)
    (first_line : bool) (input : string) : string * string :=
  match fuel with
  | O => (body, input)
  | S fuel' =>
      let total := Z.of_nat (String.length body) in
      if (total <? size_sub max_len 1)%Z then
        match fgets 1024 input with
        | None => (body, input)
        | Some (line, more) =>
            if (line =? "@@@" ++ nl)%string || (line =? "@@@" ++ str CR ++ nl)%string
            then (body, more)
            else
              let len := Z.of_nat (String.length line) in
              if (size_add total len <? size_sub max_len 1)%Z then
                let body :=
                  if negb first_line && (total <? size_sub max_len 2)%Z
                  then body ++ nl else body in
                let line := chop LF line in
                let line := chop CR line in
                read_body_lines fuel' max_len (body ++ line) false more
              else read_body_lines fuel' max_len body first_line more
        end
      else (body, input)
  end.

(** [read_multiline_body(req->body, max_len)] *)
Definition read_multiline_body (max_len : Z) (c : Console) : Console :=
  let c :=
    say (nl ++ "Enter request body (multiline supported, end with @@@ on new line):"
         ++ nl) c in
  let (text, more) :=
    read_body_lines (S (String.length (stdin c))) max_len "" true (stdin c) in
  {| world := world (update (set_body text) c); stdin := more |}.

(** *** [configure_request] *)

(** The loop of lines 537-543.  The count goes up at every iteration that
    goes on and the loop stops at [MAX_HEADERS], which bounds the fuel. *)
Fixpoint read_headers (fuel : nat) (c : Console) : Console :=
  match fuel with
  | O => c
  | S fuel' =>
      if (header_count (request c) <? MAX_HEADERS)%Z then
        let c :=
          say ("  Header " ++ print_long (header_count (request c) + 1)%Z ++ ": ") c in
        let i := Z.to_nat (header_count (request c)) in
        let (header, c) := read MAX_HEADER_LEN (header_at (request c) i) c in
        let header := cut_newline header in
        let c := update (with_header i header) c in
        if nonempty header
        then read_headers fuel'
               (update (fun req => set_header_count (header_count req + 1)%Z req) c)
        else c
      else c
  end.

(** Lines 515-530: the URL and the method. *)
Definition ask_url_and_method (c : Console) : Console :=
  let c := say (nl ++ COLOR_CYAN ++ "=== Configure Request ===" ++ COLOR_RESET ++ nl) c in
  let c := say (nl ++ "Enter URL: ") c in
  let (u, c) := read MAX_URL_LEN (url (request c)) c in
  let c := update (set_url (cut_newline u)) c in
  let c := say "Enter Method (GET/POST/PUT/DELETE/PATCH) [GET]: " c in
  let (m, c) := read 16 (method (request c)) c in
  let m := cut_newline m in
  let m := if nonempty m then m else "GET" in
  update (set_method (upcase m)) c.

(** Lines 532-544: the headers.  [input] is the local buffer of that name,
    here with what it holds on entry; the result has what it holds after. *)
Definition ask_headers (input : string) (c : Console) : string * Console :=
  let c := say (nl ++ "Add headers? (y/n) [n]: ") c in
  let (input, c) := read 512 input c in
  let c := update (set_header_count 0) c in
  if says_yes input
  then (input,
        read_headers (Z.to_nat MAX_HEADERS)
          (say ("Enter headers (format: Key: Value, empty line to finish):" ++ nl) c))
  else (input, c).

(** Lines 546-572: the body. *)
Definition ask_body (input : string) (c : Console) : string * Console :=
  if negb (method (request c) =? "GET")%string
     && negb (method (request c) =? "DELETE")%string
  then
    let c := say (nl ++ "Add request body? (y/n) [n]: ") c in
    let (input, c) := read 512 input c in
    if says_yes input
    then (input, run_prog add_content_type (read_multiline_body MAX_BODY_LEN c))
    else (input, update (set_body "") c)
  else (input, update (set_body "") c).

(** Lines 574-584: the options. *)
Definition ask_options (input : string) (c : Console) : Console :=
  let c := say (nl ++ "Follow redirects? (y/n) [y]: ") c in
  let (input, c) := read 512 input c in
  let c := update (set_follow_redirects (if not_no input then 1 else 0)) c in
  let c := say "Timeout in seconds (0 for none) [0]: " c in
  let (input, c) := read 512 input c in
  let c := update (set_timeout (atol input)) c in
  let c := say "Verbose mode? (y/n) [n]: " c in
  let (input, c) := read 512 input c in
  update (set_verbose (if says_yes input then 1 else 0)) c.

(** [configure_request]; [garbage] is what the local buffer [input], which
    is not initialised, holds on entry. *)
Definition configure_request (garbage : string) (c : Console) : Console :=
  let c := ask_url_and_method c in
  let (input, c) := ask_headers garbage c in
  let (input, c) := ask_body input c in
  ask_options input c.

(** The request of [main] before the first configuration. *)
Definition initial_request : Request :=
  {| url := ""; method := "GET"; headers := []; header_count := 0;
     body := ""; follow_redirects := 1; verbose := 0; timeout := 0;
     auth := "" |}.

(** Every string of the request fits the array that holds it, with its
    terminating NUL, and the header count is within the header array. *)
Definition within_buffers (req : Request) : Prop :=
  (String.length (url req) < MAX_URL_LEN)%nat /\
  (String.length (method req) < 16)%nat /\
  Forall (fun h => (String.length h < MAX_HEADER_LEN)%nat) (headers req) /\
  (Z.of_nat (List.length (headers req)) <= MAX_HEADERS)%Z /\
  (0 <= header_count req <= MAX_HEADERS)%Z /\
  (Z.of_nat (String.length (body req)) < MAX_BODY_LEN)%Z.





(** The headers in use are lines that were typed: not empty and without a
    newline; and their count is within the header array. *)
Definition headers_sound (req : Request) : Prop :=
  (0 <= header_count req <= MAX_HEADERS)%Z /\
  forall h, In h (header_list req) -> h <> "" /\ strchr h LF = None.

(** Every header slot fits its array, and there are no more slots than
    [MAX_HEADERS]. *)
Definition slots_fit (req : Request) : Prop :=
  Forall (fun h => (String.length h < MAX_HEADER_LEN)%nat) (headers req) /\
  (Z.of_nat (List.length (headers req)) <= MAX_HEADERS)%Z.


(** * Properties *)

(** ** Strings *)

Lemma append_nil_r (s : string) : s ++ "" = s.
Proof. induction s as [|a s IH]; cbn; [reflexivity | now rewrite IH]. Qed.

Lemma append_assoc (a b c : string) : (a ++ b) ++ c = a ++ (b ++ c).
Proof. induction a as [|x a IH]; cbn; [reflexivity | now rewrite IH]. Qed.

(** ** The JSON formatter *)

Module JsonFacts.
Import Json Spec.

Lemma dispatch_prev_char s i st :
  prev_char (dispatch s i st) = prev_char st.
Proof.
  unfold dispatch.
  repeat match goal with
         | |- context [if ?b then _ else _] => destruct b
         end; reflexivity.
Qed.

(** [prev_char] skips the blanks, inside a string literal as outside. *)
Lemma prev_char_last_visible s i :
  prev_char (state_at s i) = last_visible s i.
Proof.
  induction i as [|i IH]; [reflexivity|].
  cbn [state_at last_visible]. unfold iteration.
  destruct (not_blank (char_at s i)); [reflexivity|].
  rewrite dispatch_prev_char. exact IH.
Qed.

Lemma iteration_out s i st :
  out (iteration s i st) = out (dispatch s i st).
Proof. unfold iteration. destruct (not_blank _); reflexivity. Qed.

Lemma iteration_indent s i st :
  indent (iteration s i st) = indent (dispatch s i st).
Proof. unfold iteration. destruct (not_blank _); reflexivity. Qed.

Lemma iteration_in_string s i st :
  in_string (iteration s i st) = in_string (dispatch s i st).
Proof. unfold iteration. destruct (not_blank _); reflexivity. Qed.

(** The indent level moves by one at most per character, so it stays within
    the length of the input. *)
Lemma dispatch_indent s i st :
  (indent st - 1 <= indent (dispatch s i st) <= indent st + 1)%Z.
Proof.
  unfold dispatch.
  repeat match goal with
         | |- context [if ?b then _ else _] => destruct b
         end; cbn; lia.
Qed.

Lemma indent_bounded s i :
  (- Z.of_nat i <= indent (state_at s i) <= Z.of_nat i)%Z.
Proof.
  induction i as [|i IH]; [cbn; lia|].
  cbn [state_at]. rewrite iteration_indent.
  pose proof (dispatch_indent s i (state_at s i)). lia.
Qed.

Lemma pad_double z : pad (z * 2) = spaces (2 * Z.abs_nat z).
Proof.
  unfold pad. f_equal.
  rewrite Zabs2Nat.inj_mul. change (Z.abs_nat 2) with 2%nat. lia.
Qed.

(** Inside a string literal the chain of tests ends in one of its first two
    branches, and both write the character as it is. *)
Lemma dispatch_in_string s i st :
  in_string st = true ->
  out (dispatch s i st) = out st ++ str (char_at s i) /\
  indent (dispatch s i st) = indent st.
Proof.
  intros Hin. unfold dispatch.
  destruct ((char_at s i =? DQUOTE)%char && negb (prev_char st =? BACKSLASH)%char).
  - split; reflexivity.
  - rewrite Hin. split; reflexivity.
Qed.

Lemma dispatch_quote s i st :
  char_at s i = DQUOTE ->
  in_string (dispatch s i st) =
    if (prev_char st =? BACKSLASH)%char then in_string st else negb (in_string st).
Proof.
  intros Hc. unfold dispatch. rewrite Hc.
  destruct (prev_char st =? BACKSLASH)%char; cbn; [|reflexivity].
  destruct (in_string st) eqn:E; cbn; exact E.
Qed.

Lemma dispatch_open s i st :
  char_at s i = "{"%char \/ char_at s i = "["%char ->
  in_string st = false ->
  dispatch s i st =
    let st1 := set_indent (indent st + 1) (putchar (char_at s i) st) in
    if (i + 1 <? String.length s)%nat
       && negb (char_at s (i + 1) =? "}")%char
       && negb (char_at s (i + 1) =? "]")%char
    then newline_indent st1 else st1.
Proof.
  intros Hc Hin. unfold dispatch. rewrite Hin.
  destruct Hc as [Hc|Hc]; rewrite Hc; reflexivity.
Qed.

End JsonFacts.

(** C1: the formatter maps the three example inputs of the specification to
    the stated outputs: an empty object and an empty array stay on one line,
    and a two-member object is laid out on six lines, two spaces per level,
    with a final newline. *)
Theorem format_json_examples :
  Json.format_json "{}" = "{}" ++ nl /\
  Json.format_json "[]" = "[]" ++ nl /\
  Json.format_json ("{" ++ dq ++ "a" ++ dq ++ ":1," ++ dq ++ "b" ++ dq ++ ":[1,2]}")
  = "{" ++ nl ++
    "  " ++ dq ++ "a" ++ dq ++ ": 1," ++ nl ++
    "  " ++ dq ++ "b" ++ dq ++ ": [" ++ nl ++
    "    1," ++ nl ++
    "    2" ++ nl ++
    "  ]" ++ nl ++
    "}" ++ nl.
Proof. repeat split; vm_compute; reflexivity. Qed.

Module JsonRun.
Import Json.

Lemma step_deterministic s c c1 c2 : step s c c1 -> step s c c2 -> c1 = c2.
Proof. intros H1 H2. destruct H1. inversion H2; subst. reflexivity. Qed.

Lemma run_to_end s i :
  (i <= String.length s)%nat ->
  run s (i, state_at s i) (String.length s, state_at s (String.length s)).
Proof.
  intros Hi.
  remember (String.length s - i)%nat as d eqn:Hd.
  revert i Hi Hd. induction d as [|d IH]; intros i Hi Hd.
  - replace i with (String.length s) by lia. apply run_here.
  - apply run_step with (c2 := (S i, state_at s (S i))).
    + cbn [state_at]. apply step_iteration. lia.
    + apply IH; lia.
Qed.

Lemma halted_at_end s st : halted s (String.length s, st).
Proof. intros c' H. inversion H; subst. lia. Qed.

Lemma run_unique s c0 c cf :
  run s c0 c -> halted s c -> run s c0 cf -> halted s cf -> c = cf.
Proof.
  intros Hrun. revert cf.
  induction Hrun as [c|c1 c2 c3 Hstep Hrun IH]; intros cf Hc Hrun' Hcf.
  - destruct Hrun' as [|c1 c2 c3 Hstep _]; [reflexivity|].
    exfalso. exact (Hc _ Hstep).
  - destruct Hrun' as [c1|c1 c2' c3' Hstep' Hrun'].
    + exfalso. exact (Hcf _ Hstep).
    + rewrite (step_deterministic _ _ _ _ Hstep' Hstep) in Hrun'.
      apply IH; assumption.
Qed.

End JsonRun.

(** C2, amended: while the in-string flag is set, the iteration writes its
    character as it is, whatever the character, and leaves the indent level
    alone; at a double quote the flag flips exactly when the last character
    before it that is not a blank (space, newline, carriage return, tab) is
    not a backslash; and the object with the value [x{y] is formatted with
    the brace of the literal left in place. *)
Theorem string_literal_rules (s : string) (i : nat) :
  (i < String.length s)%nat ->
  (Json.in_string (Json.state_at s i) = true ->
   Json.out (Json.state_at s (S i))
   = Json.out (Json.state_at s i) ++ str (char_at s i) /\
   Json.indent (Json.state_at s (S i)) = Json.indent (Json.state_at s i)) /\
  (char_at s i = DQUOTE ->
   (Json.in_string (Json.state_at s (S i))
    = negb (Json.in_string (Json.state_at s i))
    <-> Spec.last_visible s i <> BACKSLASH)) /\
  Json.format_json ("{" ++ dq ++ "a" ++ dq ++ ":" ++ dq ++ "x{y" ++ dq ++ "}")
  = "{" ++ nl ++
    "  " ++ dq ++ "a" ++ dq ++ ": " ++ dq ++ "x{y" ++ dq ++ nl ++
    "}" ++ nl.
Proof.
  intros _. split; [|split].
  - intros Hin. cbn [Json.state_at].
    rewrite JsonFacts.iteration_out, JsonFacts.iteration_indent.
    apply JsonFacts.dispatch_in_string. exact Hin.
  - intros Hc. cbn [Json.state_at].
    rewrite JsonFacts.iteration_in_string, (JsonFacts.dispatch_quote _ _ _ Hc).
    rewrite JsonFacts.prev_char_last_visible.
    destruct (Ascii.eqb_spec (Spec.last_visible s i) BACKSLASH) as [E|E].
    + split; [|contradiction].
      destruct (Json.in_string (Json.state_at s i)); discriminate.
    + split; [intros _; exact E | reflexivity].
  - vm_compute. reflexivity.
Qed.

(** The brace inside the literal of the example, at index 7, is written as
    it is and the indent level stays at 1. *)
Lemma string_literal_rules_witness :
  Json.out (Json.state_at ("{" ++ dq ++ "a" ++ dq ++ ":" ++ dq ++ "x{y" ++ dq ++ "}") 8)
  = Json.out (Json.state_at ("{" ++ dq ++ "a" ++ dq ++ ":" ++ dq ++ "x{y" ++ dq ++ "}") 7)
    ++ "{" /\
  Json.indent (Json.state_at ("{" ++ dq ++ "a" ++ dq ++ ":" ++ dq ++ "x{y" ++ dq ++ "}") 8)
  = Json.indent (Json.state_at ("{" ++ dq ++ "a" ++ dq ++ ":" ++ dq ++ "x{y" ++ dq ++ "}") 7).
Proof.
  apply (string_literal_rules
           ("{" ++ dq ++ "a" ++ dq ++ ":" ++ dq ++ "x{y" ++ dq ++ "}") 7).
  - vm_compute. lia.
  - vm_compute. reflexivity.
Defined.

(** C2 as stated fails: in the JSON text of the string made of a backslash
    and a space, the closing quote at index 4 follows a space, yet the flag
    does not flip, because [prev_char] still holds the backslash. *)
Lemma quote_rule_counterexample :
  ~ Spec.quote_rule_as_stated (dq ++ bs ++ bs ++ " " ++ dq) 4.
Proof.
  intros H. unfold Spec.quote_rule_as_stated in H.
  assert (Hlt : (4 < String.length (dq ++ bs ++ bs ++ " " ++ dq))%nat)
    by (vm_compute; lia).
  destruct (H Hlt eq_refl) as [_ H2].
  assert (Hflip : ~ ((0 < 4)%nat /\
                     char_at (dq ++ bs ++ bs ++ " " ++ dq) (4 - 1) = BACKSLASH)).
  { intros [_ E]. vm_compute in E. discriminate E. }
  specialize (H2 Hflip). vm_compute in H2. discriminate H2.
Qed.

(** C3, amended: outside a string literal, an opening bracket is written,
    the indent level goes up by one, and a newline with two spaces per level
    (per unit of the level's absolute value, should closing brackets in
    excess have made it negative) follows unless the next character is [}]
    or []], whichever bracket was opened, or the bracket ends the input. *)
Theorem open_bracket_rule (s : string) (i : nat) :
  (i < String.length s)%nat ->
  char_at s i = "{"%char \/ char_at s i = "["%char ->
  Json.in_string (Json.state_at s i) = false ->
  Json.indent (Json.state_at s (S i)) = (Json.indent (Json.state_at s i) + 1)%Z /\
  Json.out (Json.state_at s (S i)) =
    Json.out (Json.state_at s i) ++ str (char_at s i) ++
    (if (S i <? String.length s)%nat
        && negb ((char_at s (S i) =? "}")%char || (char_at s (S i) =? "]")%char)
     then nl ++ spaces (2 * Z.abs_nat (Json.indent (Json.state_at s (S i))))
     else "").
Proof.
  intros _ Hc Hin. cbn [Json.state_at].
  rewrite JsonFacts.iteration_out, JsonFacts.iteration_indent.
  rewrite (JsonFacts.dispatch_open _ _ _ Hc Hin). cbv zeta.
  replace (i + 1)%nat with (S i) by lia.
  rewrite negb_orb, andb_assoc.
  destruct ((S i <? String.length s)%nat
            && negb (char_at s (S i) =? "}")%char
            && negb (char_at s (S i) =? "]")%char).
  - split; [reflexivity|].
    unfold Json.newline_indent. cbn.
    rewrite JsonFacts.pad_double, !append_assoc. reflexivity.
  - split; [reflexivity|]. cbn. reflexivity.
Qed.

Lemma open_bracket_rule_witness :
  Json.indent (Json.state_at "[{]" 2) = (Json.indent (Json.state_at "[{]" 1) + 1)%Z /\
  Json.out (Json.state_at "[{]" 2) = Json.out (Json.state_at "[{]" 1) ++ "{".
Proof.
  apply (open_bracket_rule "[{]" 1).
  - vm_compute. lia.
  - left. reflexivity.
  - reflexivity.
Defined.

(** C3 as stated fails three ways: a brace followed by the other closing
    bracket gets no newline; nor does a brace that ends the input; and at a
    negative level the newline is followed by spaces all the same. *)
Lemma open_rule_counterexample :
  ~ Spec.open_rule_as_stated "{]" 0 /\
  ~ Spec.open_rule_as_stated "{" 0 /\
  ~ Spec.open_rule_as_stated "}}[1" 2.
Proof.
  repeat split; intros H; unfold Spec.open_rule_as_stated in H.
  - assert (Hlt : (0 < String.length "{]")%nat) by (vm_compute; lia).
    destruct (H Hlt (or_introl eq_refl) eq_refl) as [_ E].
    vm_compute in E. discriminate E.
  - assert (Hlt : (0 < String.length "{")%nat) by (vm_compute; lia).
    destruct (H Hlt (or_introl eq_refl) eq_refl) as [_ E].
    vm_compute in E. discriminate E.
  - assert (Hlt : (2 < String.length "}}[1")%nat) by (vm_compute; lia).
    destruct (H Hlt (or_intror eq_refl) eq_refl) as [_ E].
    vm_compute in E. discriminate E.
Qed.

(** C9: on every input the loop of the formatter runs to its end, one
    iteration per character, and stops there; every complete run from the
    initial state ends in that same state; and the text written ends with a
    newline.  The formatter has no other outcome. *)
Theorem format_json_total (s : string) :
  exists st,
    Json.run s (0%nat, Json.init) (String.length s, st) /\
    Json.halted s (String.length s, st) /\
    (forall c, Json.run s (0%nat, Json.init) c -> Json.halted s c ->
               c = (String.length s, st)) /\
    Json.format_json s = Json.out st ++ nl.
Proof.
  exists (Json.state_at s (String.length s)).
  assert (Hrun : Json.run s (0%nat, Json.init)
                   (String.length s, Json.state_at s (String.length s))).
  { apply (JsonRun.run_to_end s 0). lia. }
  split; [|split; [|split]].
  - exact Hrun.
  - apply JsonRun.halted_at_end.
  - intros c Hc Hh.
    apply (JsonRun.run_unique s _ _ _ Hc Hh Hrun), JsonRun.halted_at_end.
  - reflexivity.
Qed.

Lemma format_json_total_witness :
  exists st,
    Json.run "{}" (0%nat, Json.init) (String.length "{}", st) /\
    Json.halted "{}" (String.length "{}", st) /\
    (forall c, Json.run "{}" (0%nat, Json.init) c -> Json.halted "{}" c ->
               c = (String.length "{}", st)) /\
    Json.format_json "{}" = Json.out st ++ nl.
Proof. apply (format_json_total "{}"). Defined.

(** ** Programs that only write *)

Lemma printf_nil w : printf "" w = w.
Proof. destruct w as [r o]. unfold printf. cbn. now rewrite append_nil_r. Qed.

Lemma printf_printf a b w : printf b (printf a w) = printf (a ++ b) w.
Proof. unfold printf. cbn. now rewrite append_assoc. Qed.

Lemma printer_frame p w : printer p -> last_request (p w) = last_request w.
Proof. intros Hp. rewrite (Hp w). reflexivity. Qed.

Lemma printer_stdout p w :
  printer p -> stdout (p w) = stdout w ++ output p (last_request w).
Proof. intros Hp. rewrite (Hp w). reflexivity. Qed.

Lemma printer_printf s : printer (printf s).
Proof. intros w. reflexivity. Qed.

Lemma output_printf s req : output (printf s) req = s.
Proof. reflexivity. Qed.

Lemma printer_skip : printer skip.
Proof. intros w. unfold output, skip. cbn. now rewrite printf_nil. Qed.

Lemma output_skip req : output skip req = "".
Proof. reflexivity. Qed.

Lemma output_andthen p q req :
  printer p -> printer q -> output (p ;; q) req = output p req ++ output q req.
Proof.
  intros Hp Hq. unfold output at 1, andthen.
  rewrite (printer_stdout q), (printer_stdout p), (printer_frame p) by assumption.
  reflexivity.
Qed.

Lemma printer_andthen p q : printer p -> printer q -> printer (p ;; q).
Proof.
  intros Hp Hq w. rewrite output_andthen by assumption.
  unfold andthen. rewrite (Hq (p w)), (printer_frame p) by assumption.
  rewrite (Hp w) at 1. apply printf_printf.
Qed.

Lemma output_with_req k req : output (with_req k) req = output (k req) req.
Proof. reflexivity. Qed.

Lemma printer_with_req k : (forall req, printer (k req)) -> printer (with_req k).
Proof. intros Hk w. rewrite output_with_req. exact (Hk (last_request w) w). Qed.

Lemma output_when c p req :
  output (when c p) req = if c then output p req else "".
Proof. destruct c; reflexivity. Qed.

Lemma printer_when c p : printer p -> printer (when c p).
Proof. intros Hp. destruct c; [exact Hp | exact printer_skip]. Qed.

Lemma printer_if (c : bool) p q :
  printer p -> printer q -> printer (if c then p else q).
Proof. intros Hp Hq. destruct c; assumption. Qed.

Lemma output_if (c : bool) p q req :
  output (if c then p else q) req = if c then output p req else output q req.
Proof. destruct c; reflexivity. Qed.

(** The header loop of a writing body runs once per header in use. *)
Lemma for_headers_from_printer body :
  (forall i, printer (body i)) ->
  forall fuel i w,
    (i + fuel)%nat = Z.to_nat (header_count (last_request w)) ->
    for_headers_from fuel i body w
    = printf (flat (map (fun j => output (body j) (last_request w)) (seq i fuel))) w.
Proof.
  intros Hb fuel. induction fuel as [|fuel IH]; intros i w Hn.
  - cbn. now rewrite printf_nil.
  - cbn [for_headers_from seq map flat fold_right].
    replace (Z.of_nat i <? header_count (last_request w))%Z with true
      by (symmetry; apply Z.ltb_lt; lia).
    rewrite IH by (rewrite (printer_frame _ _ (Hb i)); lia).
    rewrite (printer_frame _ _ (Hb i)).
    rewrite (Hb i w) at 1. apply printf_printf.
Qed.

Lemma output_for_headers body req :
  (forall i, printer (body i)) ->
  output (for_headers body) req
  = flat (map (fun i => output (body i) req) (seq 0 (Z.to_nat (header_count req)))).
Proof.
  intros Hb. unfold output at 1, for_headers.
  rewrite (for_headers_from_printer body Hb) by reflexivity. reflexivity.
Qed.

Lemma printer_for_headers body :
  (forall i, printer (body i)) -> printer (for_headers body).
Proof.
  intros Hb w. rewrite output_for_headers by assumption.
  unfold for_headers. now apply for_headers_from_printer.
Qed.

(** The loop ends because its test fails, not for want of fuel. *)
Lemma for_headers_exit body w :
  (forall i, printer (body i)) ->
  (Z.of_nat (Z.to_nat (header_count (last_request w)))
   <? header_count (last_request (for_headers body w)))%Z = false.
Proof.
  intros Hb. rewrite (printer_frame _ _ (printer_for_headers body Hb)).
  apply Z.ltb_ge. lia.
Qed.

Lemma printer_quoted_pair i : printer (quoted_pair i).
Proof.
  apply printer_with_req; intros req.
  destruct (split_header (header_at req i)) as [[k v]|]; [|apply printer_skip].
  repeat lazymatch goal with
    | |- printer (_ ;; _) => apply printer_andthen
    | |- printer (printf _) => apply printer_printf
    | |- printer (when _ _) => apply printer_when
    | |- printer (with_req _) => apply printer_with_req; intros ?
    end.
Qed.

Lemma printer_header_call m i : printer (header_call m i).
Proof.
  apply printer_with_req; intros req.
  destruct (split_header (header_at req i)) as [[k v]|];
    [apply printer_printf | apply printer_skip].
Qed.

Ltac prove_printer_with extra :=
  repeat lazymatch goal with
    | |- printer (_ ;; _) => apply printer_andthen
    | |- printer (printf _) => apply printer_printf
    | |- printer skip => apply printer_skip
    | |- printer (when _ _) => apply printer_when
    | |- printer (if _ then _ else _) => apply printer_if
    | |- printer (quoted_pair _) => apply printer_quoted_pair
    | |- printer (header_call _ _) => apply printer_header_call
    | |- printer (for_headers _) => apply printer_for_headers; intros ?
    | |- printer (with_req _) => apply printer_with_req; intros ?
    | |- printer _ => extra
    end.

Lemma printer_curl_headers : printer curl_headers.
Proof. unfold curl_headers. prove_printer_with fail. Qed.

Lemma printer_javascript_headers : printer javascript_headers.
Proof. unfold javascript_headers. prove_printer_with fail. Qed.

Lemma printer_python_headers : printer python_headers.
Proof. unfold python_headers. prove_printer_with fail. Qed.

Lemma printer_rust_headers : printer rust_headers.
Proof. unfold rust_headers. prove_printer_with fail. Qed.

Lemma printer_java_headers : printer java_headers.
Proof. unfold java_headers. prove_printer_with fail. Qed.

Ltac prove_printer :=
  prove_printer_with
    ltac:(first [ apply printer_curl_headers
                | apply printer_javascript_headers
                | apply printer_python_headers
                | apply printer_rust_headers
                | apply printer_java_headers
                | assumption ]).

Lemma printer_generate_curl_code : printer generate_curl_code.
Proof. unfold generate_curl_code. prove_printer. Qed.

Lemma printer_generate_javascript_code : printer generate_javascript_code.
Proof. unfold generate_javascript_code. prove_printer. Qed.

Lemma printer_generate_python_code : printer generate_python_code.
Proof. unfold generate_python_code. prove_printer. Qed.

Lemma printer_generate_rust_code : printer generate_rust_code.
Proof. unfold generate_rust_code. prove_printer. Qed.

Lemma printer_generate_java_code : printer generate_java_code.
Proof. unfold generate_java_code. prove_printer. Qed.

(** Rewriting the text of a composite program into the texts of its parts. *)
Ltac output_step :=
  match goal with
  | |- context [output (?p ;; ?q) ?r] =>
      rewrite (output_andthen p q r) by prove_printer
  | |- context [output (with_req ?k) ?r] =>
      rewrite (output_with_req k r); cbv beta
  | |- context [output (when ?c ?p) ?r] => rewrite (output_when c p r)
  | |- context [output (printf ?s) ?r] => rewrite (output_printf s r)
  | |- context [output skip ?r] => rewrite (output_skip r)
  | |- context [output (if ?c then ?p else ?q) ?r] =>
      rewrite (output_if c p q r)
  end.

Ltac output_norm := repeat output_step.

Lemma flat_app l1 l2 : flat (l1 ++ l2) = flat l1 ++ flat l2.
Proof.
  unfold flat. induction l1 as [|x l1 IH]; cbn; [reflexivity|].
  now rewrite IH, append_assoc.
Qed.

Lemma output_curl_headers req :
  output curl_headers req
  = flat (map (fun h => " " ++ bs ++ nl ++ "  -H '" ++ h ++ "'") (header_list req)).
Proof.
  unfold curl_headers. rewrite output_for_headers by (intros ?; prove_printer).
  unfold header_list. rewrite map_map. reflexivity.
Qed.

Lemma nonempty_eqb s : nonempty s = negb (s =? "")%string.
Proof. destruct s; reflexivity. Qed.

(** C8: the curl generator writes, after its banner, [curl -X], the method
    and the quoted URL; then one [-H] line per header in use, in order, with
    the header text as it is; then a [-d] line with the body exactly when
    the body is not empty; then [-L] exactly when [follow_redirects] is set;
    then [--max-time] and the timeout exactly when the timeout is positive;
    in that order, each on a continuation line, and two newlines. *)
Theorem curl_command_layout (req : Request) :
  output generate_curl_code req
  = (nl ++ COLOR_GREEN ++ "=== cURL ===" ++ COLOR_RESET ++ nl)
    ++ ("curl -X " ++ method req ++ " '" ++ url req ++ "'")
    ++ flat (map (fun h => " " ++ bs ++ nl ++ "  -H '" ++ h ++ "'")
                 (header_list req))
    ++ (if (body req =? "")%string then ""
        else " " ++ bs ++ nl ++ "  -d '" ++ body req ++ "'")
    ++ (if (follow_redirects req =? 0)%Z then ""
        else " " ++ bs ++ nl ++ "  -L")
    ++ (if (0 <? timeout req)%Z
        then " " ++ bs ++ nl ++ "  --max-time " ++ print_long (timeout req)
        else "")
    ++ (nl ++ nl).
Proof.
  unfold generate_curl_code. output_norm.
  rewrite output_curl_headers, nonempty_eqb, Z.gtb_ltb.
  destruct (body req =? "")%string, (follow_redirects req =? 0)%Z,
           (0 <? timeout req)%Z; reflexivity.
Qed.

(** C10: each of the five generators leaves the request as it found it:
    after the run the request, and therefore its URL, method, header slots,
    header count, body and options, is the one before the run. *)
Theorem generators_leave_request (w : World) :
  last_request (generate_curl_code w) = last_request w /\
  last_request (generate_javascript_code w) = last_request w /\
  last_request (generate_python_code w) = last_request w /\
  last_request (generate_rust_code w) = last_request w /\
  last_request (generate_java_code w) = last_request w.
Proof.
  repeat split; apply printer_frame.
  - apply printer_generate_curl_code.
  - apply printer_generate_javascript_code.
  - apply printer_generate_python_code.
  - apply printer_generate_rust_code.
  - apply printer_generate_java_code.
Qed.

(** ** Headers *)

Lemma split_header_none h : strchr h ":" = None -> split_header h = None.
Proof. intros H. unfold split_header. now rewrite H. Qed.

Lemma nth_set_slot i v l j :
  nth j (set_slot i v l) "" = if (j =? i)%nat then v else nth j l "".
Proof.
  revert l j. induction i as [|i IH]; intros l j.
  - destruct l, j as [|[|j]]; reflexivity.
  - destruct l as [|h l], j as [|j]; cbn [set_slot nth Nat.eqb];
      try reflexivity; rewrite IH; destruct (j =? i)%nat; try reflexivity.
    destruct j; reflexivity.
Qed.

Lemma header_at_with_header i v req j :
  header_at (with_header i v req) j
  = if (j =? i)%nat then v else header_at req j.
Proof. unfold header_at, with_header. cbn. apply nth_set_slot. Qed.

Lemma output_quoted_pair i req :
  output (quoted_pair i) req
  = match split_header (header_at req i) with
    | Some (key, value) =>
        "    '" ++ key ++ "': '" ++ value ++ "'"
        ++ (if (Z.of_nat i <? header_count req - 1)%Z then "," else "") ++ nl
    | None => ""
    end.
Proof.
  unfold quoted_pair. rewrite output_with_req.
  destruct (split_header (header_at req i)) as [[k v]|]; [|reflexivity].
  output_norm. now rewrite !append_assoc.
Qed.

Lemma output_header_call margin i req :
  output (header_call margin i) req
  = match split_header (header_at req i) with
    | Some (key, value) =>
        margin ++ ".header(" ++ dq ++ key ++ dq ++ ", " ++ dq ++ value ++ dq
        ++ ")" ++ nl
    | None => ""
    end.
Proof.
  unfold header_call. rewrite output_with_req.
  destruct (split_header (header_at req i)) as [[k v]|]; reflexivity.
Qed.

Lemma header_list_two req a b :
  header_list req = [a; b] ->
  header_count req = 2%Z /\ header_at req 0 = a /\ header_at req 1 = b.
Proof.
  unfold header_list. intros H.
  assert (Hn : Z.to_nat (header_count req) = 2%nat).
  { apply (f_equal (@List.length _)) in H.
    rewrite length_map, length_seq in H. exact H. }
  rewrite Hn in H. cbn in H. injection H as H0 H1.
  repeat split; try assumption. lia.
Qed.

(** ** Occurrences *)

Lemma occurs_refl t : occurs t t.
Proof. exists "", "". cbn. now rewrite append_nil_r. Qed.

Lemma occurs_here t post : occurs t (t ++ post).
Proof. exists "", post. reflexivity. Qed.

Lemma occurs_skip t a s : occurs t s -> occurs t (a ++ s).
Proof.
  intros (pre & post & ->). exists (a ++ pre), post.
  now rewrite append_assoc.
Qed.

Lemma occurs_before t s b : occurs t s -> occurs t (s ++ b).
Proof.
  intros (pre & post & ->). exists pre, (post ++ b).
  now rewrite !append_assoc.
Qed.

Lemma occurs_flat_map (f : string -> string) x l :
  In x l -> occurs (f x) (flat (map f l)).
Proof.
  intros Hin. apply in_split in Hin as (l1 & l2 & ->).
  rewrite map_app, flat_app. cbn [map flat fold_right].
  apply occurs_skip, occurs_here.
Qed.

Lemma starts_with_append t post : starts_with t (t ++ post) = true.
Proof.
  induction t as [|a t IH]; [reflexivity|].
  cbn. now rewrite Ascii.eqb_refl, IH.
Qed.

Lemma contains_here t s : starts_with t s = true -> contains t s = true.
Proof. intros H. destruct s; cbn in *; rewrite H; reflexivity. Qed.

Lemma occurs_contains t s : occurs t s -> contains t s = true.
Proof.
  intros (pre & post & ->).
  induction pre as [|a pre IH].
  - cbn [append]. apply contains_here, starts_with_append.
  - cbn [append contains]. rewrite IH. apply orb_true_r.
Qed.

(** C6: for a request whose headers in use are [Content-Type:
    application/json] and [X-Test: 1], the header block of the JavaScript
    generator and that of the Python generator hold exactly two pairs, in
    that order, each with the key before the colon and the value after it
    without its leading space; and each block is part of its generator's
    output. *)
Theorem two_headers_in_order (req : Request) :
  header_list req = ["Content-Type: application/json"; "X-Test: 1"] ->
  map split_header (header_list req)
  = [Some ("Content-Type", "application/json"); Some ("X-Test", "1")] /\
  output javascript_headers req
  = "  headers: {" ++ nl ++
    "    'Content-Type': 'application/json'," ++ nl ++
    "    'X-Test': '1'" ++ nl ++
    "  }," ++ nl /\
  output python_headers req
  = "headers = {" ++ nl ++
    "    'Content-Type': 'application/json'," ++ nl ++
    "    'X-Test': '1'" ++ nl ++
    "}" ++ nl ++ nl /\
  occurs (output javascript_headers req) (output generate_javascript_code req) /\
  occurs (output python_headers req) (output generate_python_code req).
Proof.
  intros H. destruct (header_list_two _ _ _ H) as (Hn & H0 & H1).
  split; [rewrite H; reflexivity|].
  assert (Hloop : output (for_headers quoted_pair) req
                  = "    'Content-Type': 'application/json'," ++ nl ++
                    "    'X-Test': '1'" ++ nl).
  { rewrite output_for_headers by (intros ?; prove_printer).
    rewrite Hn. change (Z.to_nat 2) with 2%nat.
    cbn [seq map flat fold_right].
    rewrite !output_quoted_pair, H0, H1, Hn. vm_compute. reflexivity. }
  split; [|split; [|split]].
  - unfold javascript_headers. output_norm. rewrite Hloop, Hn.
    vm_compute. reflexivity.
  - unfold python_headers. output_norm. rewrite Hloop, Hn.
    vm_compute. reflexivity.
  - unfold generate_javascript_code. output_norm.
    do 3 apply occurs_skip. apply occurs_here.
  - unfold generate_python_code. output_norm.
    do 3 apply occurs_skip. apply occurs_here.
Qed.

Lemma two_headers_in_order_witness :
  output javascript_headers
    {| url := "http://localhost:8080/items"; method := "POST";
       headers := ["Content-Type: application/json"; "X-Test: 1"];
       header_count := 2; body := "{}"; follow_redirects := 1;
       verbose := 0; timeout := 0; auth := "" |}
  = "  headers: {" ++ nl ++
    "    'Content-Type': 'application/json'," ++ nl ++
    "    'X-Test': '1'" ++ nl ++
    "  }," ++ nl.
Proof.
  apply (two_headers_in_order
           {| url := "http://localhost:8080/items"; method := "POST";
              headers := ["Content-Type: application/json"; "X-Test: 1"];
              header_count := 2; body := "{}"; follow_redirects := 1;
              verbose := 0; timeout := 0; auth := "" |}).
  reflexivity.
Defined.

(** ** A header without a colon *)

Lemma in_header_list req i :
  (Z.of_nat i < header_count req)%Z -> In (header_at req i) (header_list req).
Proof.
  intros Hi. unfold header_list. apply in_map, in_seq. lia.
Qed.

Section ColonlessSlot.

Variables (req : Request) (i : nat) (other : string).
Hypothesis Hnone : strchr (header_at req i) ":" = None.
Hypothesis Hother : strchr other ":" = None.

Lemma split_header_with_colonless j :
  split_header (header_at (with_header i other req) j)
  = split_header (header_at req j).
Proof.
  rewrite header_at_with_header.
  destruct (Nat.eqb_spec j i) as [->|_]; [|reflexivity].
  now rewrite !split_header_none.
Qed.

Lemma quoted_pairs_with_colonless :
  output (for_headers quoted_pair) (with_header i other req)
  = output (for_headers quoted_pair) req.
Proof.
  rewrite !output_for_headers by (intros ?; prove_printer).
  change (header_count (with_header i other req)) with (header_count req).
  f_equal. apply map_ext. intros j.
  rewrite !output_quoted_pair, split_header_with_colonless. reflexivity.
Qed.

Lemma header_calls_with_colonless margin :
  output (for_headers (header_call margin)) (with_header i other req)
  = output (for_headers (header_call margin)) req.
Proof.
  rewrite !output_for_headers by (intros ?; prove_printer).
  change (header_count (with_header i other req)) with (header_count req).
  f_equal. apply map_ext. intros j.
  rewrite !output_header_call, split_header_with_colonless. reflexivity.
Qed.

Lemma javascript_with_colonless :
  output generate_javascript_code (with_header i other req)
  = output generate_javascript_code req.
Proof.
  unfold generate_javascript_code, javascript_headers. output_norm.
  rewrite quoted_pairs_with_colonless. reflexivity.
Qed.

Lemma python_with_colonless :
  output generate_python_code (with_header i other req)
  = output generate_python_code req.
Proof.
  unfold generate_python_code, python_headers. output_norm.
  rewrite quoted_pairs_with_colonless. reflexivity.
Qed.

Lemma rust_with_colonless :
  output generate_rust_code (with_header i other req)
  = output generate_rust_code req.
Proof.
  unfold generate_rust_code, rust_headers. output_norm.
  rewrite header_calls_with_colonless. reflexivity.
Qed.

Lemma java_with_colonless :
  output generate_java_code (with_header i other req)
  = output generate_java_code req.
Proof.
  unfold generate_java_code, java_headers. output_norm.
  rewrite header_calls_with_colonless. reflexivity.
Qed.

End ColonlessSlot.

(** C7: a header in use that has no colon makes the header loop of the
    JavaScript, Python, Rust and Java generators do nothing at its index, no
    text and no change of state; the output of these four generators is the
    same whatever colon-free text the slot holds; and the output of the curl
    generator has the [-H] line with the header as it is. *)
Theorem colonless_header_skipped (req : Request) (i : nat) :
  (Z.of_nat i < header_count req)%Z ->
  strchr (header_at req i) ":" = None ->
  (forall w, last_request w = req ->
     quoted_pair i w = w /\ forall margin, header_call margin i w = w) /\
  (forall other, strchr other ":" = None ->
     output generate_javascript_code (with_header i other req)
     = output generate_javascript_code req /\
     output generate_python_code (with_header i other req)
     = output generate_python_code req /\
     output generate_rust_code (with_header i other req)
     = output generate_rust_code req /\
     output generate_java_code (with_header i other req)
     = output generate_java_code req) /\
  occurs (" " ++ bs ++ nl ++ "  -H '" ++ header_at req i ++ "'")
         (output generate_curl_code req).
Proof.
  intros Hi Hnone. split; [|split].
  - intros w <-. unfold quoted_pair, header_call, with_req.
    rewrite (split_header_none _ Hnone). split; reflexivity.
  - intros other Hother. repeat split.
    + now apply javascript_with_colonless.
    + now apply python_with_colonless.
    + now apply rust_with_colonless.
    + now apply java_with_colonless.
  - unfold generate_curl_code. output_norm. rewrite output_curl_headers.
    do 2 apply occurs_skip. apply occurs_before.
    apply (occurs_flat_map (fun h => " " ++ bs ++ nl ++ "  -H '" ++ h ++ "'")).
    now apply in_header_list.
Qed.

Lemma colonless_header_skipped_witness :
  occurs (" " ++ bs ++ nl ++ "  -H 'malformed-header'")
    (output generate_curl_code
       {| url := "http://localhost:8080/items"; method := "GET";
          headers := ["Accept: text/plain"; "malformed-header"];
          header_count := 2; body := ""; follow_redirects := 1;
          verbose := 0; timeout := 0; auth := "" |}).
Proof.
  apply (colonless_header_skipped
           {| url := "http://localhost:8080/items"; method := "GET";
              headers := ["Accept: text/plain"; "malformed-header"];
              header_count := 2; body := ""; follow_redirects := 1;
              verbose := 0; timeout := 0; auth := "" |} 1).
  - cbn. lia.
  - reflexivity.
Defined.

(** ** The method *)

Lemma call_name_other m :
  m <> "GET" -> m <> "POST" -> m <> "PUT" -> m <> "DELETE" ->
  call_name m = "request".
Proof.
  intros H1 H2 H3 H4. unfold call_name.
  now rewrite (proj2 (String.eqb_neq _ _) H1), (proj2 (String.eqb_neq _ _) H2),
              (proj2 (String.eqb_neq _ _) H3), (proj2 (String.eqb_neq _ _) H4).
Qed.

Lemma publisher_name_other m :
  m <> "GET" -> m <> "POST" -> m <> "PUT" -> m <> "DELETE" ->
  publisher_name m = "method".
Proof.
  intros H1 H2 H3 H4. unfold publisher_name.
  now rewrite (proj2 (String.eqb_neq _ _) H1), (proj2 (String.eqb_neq _ _) H2),
              (proj2 (String.eqb_neq _ _) H3), (proj2 (String.eqb_neq _ _) H4).
Qed.

(** Looks for the text among the pieces of an output. *)
Ltac find_piece :=
  repeat first [ apply occurs_here | apply occurs_refl | apply occurs_skip ].

(** C4, amended: for [PATCH], as for every method other than [GET], [POST],
    [PUT] and [DELETE], the Python generator writes the call
    [requests.request(url] and the Rust generator the call
    [client.request(] on the URL; the curl generator writes the method
    itself after [-X]; the Java generator writes the method itself as the
    name of the builder call when the body is empty, and the name [method]
    when there is a body. *)
Theorem other_method_rendering (req : Request) :
  method req <> "GET" -> method req <> "POST" ->
  method req <> "PUT" -> method req <> "DELETE" ->
  occurs "response = requests.request(url" (output generate_python_code req) /\
  occurs ("    let response = client.request(" ++ dq ++ url req ++ dq ++ ")" ++ nl)
         (output generate_rust_code req) /\
  occurs ("curl -X " ++ method req ++ " '" ++ url req ++ "'")
         (output generate_curl_code req) /\
  (body req = "" ->
   occurs ("            ." ++ method req
           ++ "(HttpRequest.BodyPublishers.noBody());" ++ nl)
          (output generate_java_code req)) /\
  (body req <> "" ->
   occurs ("            .method(HttpRequest.BodyPublishers.ofString(jsonBody));" ++ nl)
          (output generate_java_code req)).
Proof.
  intros H1 H2 H3 H4.
  pose proof (call_name_other _ H1 H2 H3 H4) as Hcall.
  pose proof (publisher_name_other _ H1 H2 H3 H4) as Hpub.
  split; [|split; [|split; [|split]]].
  - unfold generate_python_code. output_norm. rewrite Hcall. find_piece.
  - unfold generate_rust_code. output_norm. rewrite Hcall. find_piece.
  - unfold generate_curl_code. output_norm. find_piece.
  - intros Hb. unfold generate_java_code. output_norm. rewrite Hb.
    cbn [nonempty]. find_piece.
  - intros Hb. unfold generate_java_code. output_norm. rewrite Hpub.
    destruct (body req) as [|c b]; [contradiction|]. cbn [nonempty]. find_piece.
Qed.

Lemma other_method_rendering_witness :
  occurs "response = requests.request(url"
    (output generate_python_code
       {| url := "http://localhost:8080/items/1"; method := "PATCH";
          headers := []; header_count := 0; body := "";
          follow_redirects := 1; verbose := 0; timeout := 0; auth := "" |}) /\
  occurs ("    let response = client.request(" ++ dq
          ++ "http://localhost:8080/items/1" ++ dq ++ ")" ++ nl)
    (output generate_rust_code
       {| url := "http://localhost:8080/items/1"; method := "PATCH";
          headers := []; header_count := 0; body := "";
          follow_redirects := 1; verbose := 0; timeout := 0; auth := "" |}) /\
  occurs "curl -X PATCH 'http://localhost:8080/items/1'"
    (output generate_curl_code
       {| url := "http://localhost:8080/items/1"; method := "PATCH";
          headers := []; header_count := 0; body := "";
          follow_redirects := 1; verbose := 0; timeout := 0; auth := "" |}) /\
  occurs ("            .PATCH(HttpRequest.BodyPublishers.noBody());" ++ nl)
    (output generate_java_code
       {| url := "http://localhost:8080/items/1"; method := "PATCH";
          headers := []; header_count := 0; body := "";
          follow_redirects := 1; verbose := 0; timeout := 0; auth := "" |}).
Proof.
  destruct (other_method_rendering
              {| url := "http://localhost:8080/items/1"; method := "PATCH";
                 headers := []; header_count := 0; body := "";
                 follow_redirects := 1; verbose := 0; timeout := 0; auth := "" |})
    as (Hpy & Hrust & Hcurl & Hjava & _);
    try (cbn; discriminate).
  repeat split; [exact Hpy | exact Hrust | exact Hcurl | exact (Hjava eq_refl)].
Defined.

(** C4 as stated fails for the Java generator: for a [PATCH] request with a
    body, its output has [.method(] and nowhere the token [PATCH]. *)
Lemma patch_rule_counterexample :
  ~ Spec.patch_rule_as_stated
      {| url := "http://localhost:8080/items/1"; method := "PATCH";
         headers := []; header_count := 0; body := "{}";
         follow_redirects := 1; verbose := 0; timeout := 0; auth := "" |}.
Proof.
  intros H. destruct (H eq_refl) as (_ & _ & _ & Hjava).
  apply occurs_contains in Hjava. vm_compute in Hjava. discriminate Hjava.
Qed.

(** ** The [Content-Type] step *)

Lemma tolower_colon c : tolower c = ":"%char -> c = ":"%char.
Proof.
  destruct c as [[] [] [] [] [] [] [] []]; vm_compute; intros H;
    first [reflexivity | discriminate H].
Qed.

Lemma nat_of_ascii_diff c1 c2 :
  (Z.of_nat (nat_of_ascii c1) - Z.of_nat (nat_of_ascii c2))%Z = 0%Z -> c1 = c2.
Proof.
  intros H. assert (E : nat_of_ascii c1 = nat_of_ascii c2) by lia.
  apply (f_equal ascii_of_nat) in E. now rewrite !ascii_nat_embedding in E.
Qed.

Lemma strncasecmp_key p :
  Forall (fun c => tolower c <> NUL /\ tolower c <> ":"%char)
         (list_ascii_of_string p) ->
  forall h,
    strncasecmp h (p ++ ":") (S (String.length p)) = 0%Z <-> key_reads p h.
Proof.
  induction p as [|x p IH]; intros Hp h.
  - unfold key_reads. destruct h as [|a r].
    + cbn. split; [discriminate | contradiction].
    + cbn [strncasecmp append String.length char_at String.get strchr].
      change (tolower ":") with ":"%char.
      destruct (Ascii.eqb_spec a ":") as [->|Ha].
      * cbn. split; reflexivity.
      * destruct (Ascii.eqb_spec (tolower a) ":") as [E|E].
        { apply tolower_colon in E. contradiction. }
        split.
        { intros D. apply nat_of_ascii_diff in D. contradiction. }
        { destruct (strchr r ":"); cbn; [discriminate | contradiction]. }
  - cbn [list_ascii_of_string] in Hp. inversion Hp as [|? ? [Hx1 Hx2] Hp']; subst.
    specialize (IH Hp'). unfold key_reads. destruct h as [|a r].
    + cbn [strncasecmp append String.length char_at String.get strchr].
      change (tolower NUL) with NUL.
      destruct (Ascii.eqb_spec NUL (tolower x)) as [E|E];
        [symmetry in E; contradiction|].
      split; [|contradiction].
      intros D. apply nat_of_ascii_diff in D. contradiction.
    + cbn [strncasecmp append String.length char_at String.get strchr rest].
      destruct (Ascii.eqb_spec (tolower a) (tolower x)) as [E|E].
      * destruct (Ascii.eqb_spec (tolower a) NUL) as [E0|_];
          [rewrite E in E0; contradiction|].
        destruct (Ascii.eqb_spec a ":") as [->|_].
        { change (tolower ":") with ":"%char in E. symmetry in E. contradiction. }
        rewrite (IH r). unfold key_reads.
        destruct (strchr r ":") as [k|]; [|reflexivity].
        cbn [substring lower]. rewrite E. split.
        { intros ->. reflexivity. }
        { intros D. now injection D. }
      * split.
        { intros D. apply nat_of_ascii_diff in D. contradiction. }
        { destruct (Ascii.eqb_spec a ":") as [->|_].
          - cbn. discriminate.
          - destruct (strchr r ":") as [k|]; [|contradiction].
            cbn [substring lower]. intros D. injection D as D _. contradiction. }
Qed.

Lemma names_content_type_key h :
  Spec.names_content_type h = true <-> key_reads "Content-Type" h.
Proof.
  unfold Spec.names_content_type, key_reads, split_header, cut_at.
  destruct (strchr h ":") as [k|].
  - change (lower "Content-Type") with "content-type". apply String.eqb_eq.
  - split; [discriminate | contradiction].
Qed.

(** The test of the loop is the test on the key. *)
Lemma strncasecmp_content_type h :
  (strncasecmp h "Content-Type:" 13 =? 0)%Z = Spec.names_content_type h.
Proof.
  apply eq_true_iff_eq. rewrite Z.eqb_eq, names_content_type_key.
  apply (strncasecmp_key "Content-Type").
  cbn [list_ascii_of_string].
  repeat constructor; vm_compute; discriminate.
Qed.

Lemma has_content_type_from_existsb req fuel i :
  has_content_type_from req fuel i
  = existsb Spec.names_content_type (map (header_at req) (seq i fuel)).
Proof.
  revert i. induction fuel as [|fuel IH]; intros i; [reflexivity|].
  cbn [has_content_type_from seq map existsb].
  rewrite strncasecmp_content_type, IH.
  destruct (Spec.names_content_type (header_at req i)); reflexivity.
Qed.

Lemma header_list_appended req v :
  (0 <= header_count req)%Z ->
  map (header_at (with_header (Z.to_nat (header_count req)) v req))
      (seq 0 (Z.to_nat (header_count req + 1)))
  = (header_list req ++ [v])%list.
Proof.
  intros Hn. unfold header_list.
  replace (Z.to_nat (header_count req + 1)) with (Z.to_nat (header_count req) + 1)%nat
    by lia.
  rewrite seq_app, map_app. cbn [seq map Nat.add]. f_equal.
  - apply map_ext_in. intros j Hj. apply in_seq in Hj.
    rewrite header_at_with_header.
    destruct (Nat.eqb_spec j (Z.to_nat (header_count req))); [lia | reflexivity].
  - rewrite header_at_with_header, Nat.eqb_refl. reflexivity.
Qed.

(** C5, amended: the step adds [Content-Type: application/json] after the
    headers in use, and counts it, when the first character of the body is
    [{] or [[], no header in use has a key equal to [Content-Type] up to
    case, and fewer than 50 headers are in use; in every other case,
    among them an empty body and a body that starts with a space, it leaves
    the request as it is. *)
Theorem content_type_added (w : World) :
  (0 <= header_count (last_request w))%Z ->
  if Spec.opens_json (char_at (body (last_request w)) 0)
     && negb (existsb Spec.names_content_type (header_list (last_request w)))
     && (header_count (last_request w) <? MAX_HEADERS)%Z
  then
    header_list (last_request (add_content_type w))
    = (header_list (last_request w) ++ [Spec.CONTENT_TYPE_JSON])%list /\
    header_count (last_request (add_content_type w))
    = (header_count (last_request w) + 1)%Z /\
    url (last_request (add_content_type w)) = url (last_request w) /\
    method (last_request (add_content_type w)) = method (last_request w) /\
    body (last_request (add_content_type w)) = body (last_request w)
  else
    last_request (add_content_type w) = last_request w.
Proof.
  intros Hn. unfold add_content_type, with_req, Spec.opens_json.
  destruct ((char_at (body (last_request w)) 0 =? "{")%char
            || (char_at (body (last_request w)) 0 =? "[")%char);
    cbn [when andb]; [|reflexivity].
  rewrite has_content_type_from_existsb. fold (header_list (last_request w)).
  destruct (negb (existsb Spec.names_content_type (header_list (last_request w)))
            && (header_count (last_request w) <? MAX_HEADERS)%Z);
    cbn [when]; [|reflexivity].
  unfold andthen, with_req, store_header, incr_header_count, printf.
  cbn [last_request stdout url method body header_count with_header].
  split; [|repeat split].
  unfold header_list at 1. cbn [header_count].
  apply (header_list_appended (last_request w) Spec.CONTENT_TYPE_JSON Hn).
Qed.

Lemma content_type_added_witness :
  header_list
    (last_request
       (add_content_type
          {| last_request :=
               {| url := "http://localhost:8080/items"; method := "POST";
                  headers := ["Accept: */*"]; header_count := 1;
                  body := "{" ++ dq ++ "name" ++ dq ++ ":1}";
                  follow_redirects := 1; verbose := 0; timeout := 0;
                  auth := "" |};
             stdout := "" |}))
  = ["Accept: */*"; "Content-Type: application/json"].
Proof.
  apply (content_type_added
           {| last_request :=
                {| url := "http://localhost:8080/items"; method := "POST";
                   headers := ["Accept: */*"]; header_count := 1;
                   body := "{" ++ dq ++ "name" ++ dq ++ ":1}";
                   follow_redirects := 1; verbose := 0; timeout := 0;
                   auth := "" |};
              stdout := "" |}).
  cbn. lia.
Defined.

(** C5 as stated fails twice: a body whose first character is a space, with
    [{] after it, gets no header; and a request that already uses all 50
    header slots gets none either. *)
Lemma content_type_rule_counterexample :
  ~ Spec.content_type_rule_as_stated
      {| url := "http://localhost:8080/items"; method := "POST";
         headers := []; header_count := 0; body := " {}";
         follow_redirects := 1; verbose := 0; timeout := 0; auth := "" |} /\
  ~ Spec.content_type_rule_as_stated
      {| url := "http://localhost:8080/items"; method := "POST";
         headers := repeat "Accept: */*" 50; header_count := 50; body := "{}";
         follow_redirects := 1; verbose := 0; timeout := 0; auth := "" |}.
Proof.
  split; intros H; unfold Spec.content_type_rule_as_stated in H;
    cbv zeta in H.
  - assert (Hb : " {}" <> "") by discriminate.
    specialize (H Hb). vm_compute in H. discriminate H.
  - assert (Hb : "{}" <> "") by discriminate.
    specialize (H Hb). vm_compute in H.
    apply (f_equal (@List.length _)) in H. vm_compute in H. discriminate H.
Qed.

(** ** Further properties of the formatter *)

Lemma visible_append a b : visible (a ++ b) = visible a ++ visible b.
Proof.
  induction a as [|x a IH]; [reflexivity|].
  cbn. destruct (Json.not_blank x); cbn; now rewrite IH.
Qed.

Lemma visible_spaces n : visible (spaces n) = "".
Proof. induction n as [|n IH]; [reflexivity | exact IH]. Qed.

Lemma visible_pad z : visible (pad z) = "".
Proof. apply visible_spaces. Qed.

Lemma substring_full s : substring 0 (String.length s) s = s.
Proof. induction s as [|a s IH]; cbn; [reflexivity | now rewrite IH]. Qed.

Lemma substring_snoc s i :
  (i < String.length s)%nat ->
  substring 0 (S i) s = substring 0 i s ++ str (char_at s i).
Proof.
  revert i. induction s as [|a s IH]; intros i Hi; [cbn in Hi; lia|].
  destruct i as [|i]; [destruct s; reflexivity|].
  cbn in Hi. change (substring 0 (S (S i)) (String a s))
    with (String a (substring 0 (S i) s)).
  rewrite IH by lia. reflexivity.
Qed.

Lemma all_chars_char_at p s i :
  all_chars p s = true -> (i < String.length s)%nat -> p (char_at s i) = true.
Proof.
  revert i. induction s as [|a s IH]; intros i Hp Hi; [cbn in Hi; lia|].
  cbn in Hp. apply andb_prop in Hp as [Ha Hs].
  destruct i as [|i]; [exact Ha|]. cbn in Hi. apply (IH i Hs). lia.
Qed.

Lemma visible_nl_pad z : visible (nl ++ pad z) = "".
Proof. rewrite visible_append, visible_pad. reflexivity. Qed.

Module JsonMore.
Import Json Spec.

(** Whatever branch an iteration takes, what it writes is its character,
    with blanks before or after it, or nothing when the character is a
    blank. *)
Lemma dispatch_visible s i st :
  visible (out (dispatch s i st))
  = visible (out st) ++ visible (str (char_at s i)).
Proof.
  unfold dispatch, newline_indent.
  destruct ((char_at s i =? DQUOTE)%char && negb (prev_char st =? BACKSLASH)%char);
    [cbn; apply visible_append|].
  destruct (in_string st); [cbn; apply visible_append|].
  destruct ((char_at s i =? "{")%char || (char_at s i =? "[")%char).
  { destruct ((i + 1 <? String.length s)%nat
              && negb (char_at s (i + 1) =? "}")%char
              && negb (char_at s (i + 1) =? "]")%char);
      cbn -[pad visible nl].
    - rewrite !visible_append, visible_pad. change (visible nl) with EmptyString.
      cbn [append]. now rewrite append_nil_r.
    - apply visible_append. }
  destruct ((char_at s i =? "}")%char || (char_at s i =? "]")%char).
  { cbn -[pad visible nl].
    destruct (negb (prev_char st =? "{")%char && negb (prev_char st =? "[")%char);
      cbn -[pad visible nl].
    - rewrite !visible_append, visible_pad. change (visible nl) with EmptyString.
      cbn [append]. now rewrite append_nil_r.
    - apply visible_append. }
  destruct (Ascii.eqb_spec (char_at s i) ",") as [->|_].
  { cbn -[pad visible nl].
    rewrite !visible_append, visible_pad. change (visible nl) with EmptyString.
      cbn [append]. now rewrite append_nil_r. }
  destruct (Ascii.eqb_spec (char_at s i) ":") as [->|_].
  { cbn -[visible]. rewrite !visible_append. reflexivity. }
  destruct (not_blank (char_at s i)) eqn:E.
  - cbn -[visible]. apply visible_append.
  - cbn. rewrite E. now rewrite append_nil_r.
Qed.

Lemma state_at_visible s i :
  (i <= String.length s)%nat ->
  visible (out (state_at s i)) = visible (substring 0 i s).
Proof.
  induction i as [|i IH]; intros Hi; [destruct s; reflexivity|].
  cbn [state_at]. rewrite JsonFacts.iteration_out, dispatch_visible.
  rewrite IH by lia. rewrite substring_snoc by lia.
  now rewrite visible_append.
Qed.

(** An iteration on a character that is no quote, bracket, comma or colon,
    outside a string literal, writes the character unless it is a blank and
    changes neither the flag nor the level. *)
Lemma dispatch_plain s i st :
  json_mark (char_at s i) = false ->
  in_string st = false ->
  in_string (dispatch s i st) = false /\
  indent (dispatch s i st) = indent st /\
  out (dispatch s i st) = out st ++ visible (str (char_at s i)).
Proof.
  unfold json_mark, dispatch. intros Hm Hin.
  repeat (apply orb_false_elim in Hm as [Hm ?]).
  rewrite Hin.
  repeat match goal with
         | H : (_ =? _)%char = false |- _ => rewrite H; clear H
         end.
  cbn [andb orb]. cbn [visible str].
  destruct (not_blank (char_at s i)).
  - repeat split; [exact Hin].
  - repeat split; [exact Hin | cbn; now rewrite append_nil_r].
Qed.

Lemma state_at_plain s i :
  all_chars (fun c => negb (json_mark c)) s = true ->
  (i <= String.length s)%nat ->
  in_string (state_at s i) = false /\
  indent (state_at s i) = 0%Z /\
  out (state_at s i) = visible (substring 0 i s).
Proof.
  intros Hp. induction i as [|i IH]; intros Hi.
  - repeat split. destruct s; reflexivity.
  - destruct IH as (Hin & Hind & Hout); [lia|].
    cbn [state_at].
    rewrite JsonFacts.iteration_in_string, JsonFacts.iteration_indent,
            JsonFacts.iteration_out.
    assert (Hm : json_mark (char_at s i) = false).
    { apply negb_true_iff. apply (all_chars_char_at _ _ _ Hp). lia. }
    destruct (dispatch_plain s i _ Hm Hin) as (H1 & H2 & H3).
    rewrite H1, H2, H3, Hind, Hout. repeat split.
    rewrite substring_snoc by lia. now rewrite visible_append.
Qed.

End JsonMore.

(** X1: the formatter changes whitespace only: for every input, the
    characters of the output that are not a space, newline, carriage return
    or tab are those of the input, in the same order. *)
Theorem format_json_keeps_visible (s : string) :
  visible (Json.format_json s) = visible s.
Proof.
  unfold Json.format_json. cbn [Json.out Json.printf].
  rewrite visible_append, JsonMore.state_at_visible by lia.
  rewrite substring_full. cbn. apply append_nil_r.
Qed.

(** X2: after [i] characters the indent level lies between [-i] and [i], so
    on an input shorter than 2^30 characters neither the level nor its
    double leaves the range of [int]. *)
Theorem indent_within_int (s : string) (i : nat) :
  (i <= String.length s)%nat ->
  (Z.of_nat (String.length s) < 2 ^ 30)%Z ->
  (- 2 ^ 31 <= Json.indent (Json.state_at s i) * 2 < 2 ^ 31)%Z.
Proof.
  intros Hi Hs. pose proof (JsonFacts.indent_bounded s i) as Hb. lia.
Qed.

Lemma indent_within_int_witness :
  (- 2 ^ 31 <= Json.indent (Json.state_at "[[1]]" 2) * 2 < 2 ^ 31)%Z.
Proof.
  apply (indent_within_int "[[1]]" 2).
  - cbn. lia.
  - cbn. lia.
Defined.

(** X3: an input without a double quote, bracket, brace, comma or colon,
    such as a number, [true], [null], blanks only or nothing at all, is
    written without its blanks and followed by a newline. *)
Theorem format_json_plain (s : string) :
  all_chars (fun c => negb (json_mark c)) s = true ->
  Json.format_json s = visible s ++ nl.
Proof.
  intros Hp. unfold Json.format_json. cbn [Json.out Json.printf].
  destruct (JsonMore.state_at_plain s (String.length s) Hp) as (_ & _ & ->);
    [lia|].
  now rewrite substring_full.
Qed.

Lemma format_json_plain_witness :
  Json.format_json (" 12.5" ++ nl) = "12.5" ++ nl.
Proof. apply (format_json_plain (" 12.5" ++ nl)). reflexivity. Defined.

(** X4: outside a string literal, a closing brace or bracket lowers the
    indent level by one and is written after a newline and two spaces per
    level (of the lowered level's absolute value), except that it is written
    at once when the last character before it that is not a blank is an
    opening brace or bracket, of either kind. *)
Theorem close_bracket_rule (s : string) (i : nat) :
  (i < String.length s)%nat ->
  char_at s i = "}"%char \/ char_at s i = "]"%char ->
  Json.in_string (Json.state_at s i) = false ->
  Json.indent (Json.state_at s (S i)) = (Json.indent (Json.state_at s i) - 1)%Z /\
  Json.out (Json.state_at s (S i)) =
    Json.out (Json.state_at s i) ++
    (if (Spec.last_visible s i =? "{")%char || (Spec.last_visible s i =? "[")%char
     then ""
     else nl ++ spaces (2 * Z.abs_nat (Json.indent (Json.state_at s (S i)))))
    ++ str (char_at s i).
Proof.
  intros _ Hc Hin. cbn [Json.state_at].
  rewrite JsonFacts.iteration_out, JsonFacts.iteration_indent.
  rewrite <- JsonFacts.prev_char_last_visible.
  unfold Json.dispatch. rewrite Hin.
  assert (Hq : (char_at s i =? DQUOTE)%char = false)
    by (destruct Hc as [-> | ->]; reflexivity).
  assert (Ho : (char_at s i =? "{")%char || (char_at s i =? "[")%char = false)
    by (destruct Hc as [-> | ->]; reflexivity).
  assert (Hcl : (char_at s i =? "}")%char || (char_at s i =? "]")%char = true)
    by (destruct Hc as [-> | ->]; reflexivity).
  rewrite Hq, Ho, Hcl. cbn [andb].
  cbn [Json.set_indent Json.prev_char Json.indent].
  rewrite <- negb_orb.
  destruct ((Json.prev_char (Json.state_at s i) =? "{")%char
            || (Json.prev_char (Json.state_at s i) =? "[")%char); cbn.
  - split; reflexivity.
  - split; [reflexivity|]. rewrite JsonFacts.pad_double, !append_assoc.
    reflexivity.
Qed.

Lemma close_bracket_rule_witness :
  Json.indent (Json.state_at "[1]" 3) = (Json.indent (Json.state_at "[1]" 2) - 1)%Z /\
  Json.out (Json.state_at "[1]" 3) = Json.out (Json.state_at "[1]" 2) ++ nl ++ "]".
Proof.
  apply (close_bracket_rule "[1]" 2).
  - cbn. lia.
  - right. reflexivity.
  - reflexivity.
Defined.


(** ** Further properties of the header split *)

Lemma strchr_append_miss k c r :
  strchr k c = None -> strchr (k ++ String c r) c = Some (String.length k).
Proof.
  induction k as [|a k IH]; cbn; intros H.
  - now rewrite Ascii.eqb_refl.
  - destruct (a =? c)%char; [discriminate|].
    destruct (strchr k c); [discriminate|]. now rewrite IH.
Qed.

Lemma substring_append_left k r : substring 0 (String.length k) (k ++ r) = k.
Proof.
  induction k as [|a k IH]; cbn; [destruct r; reflexivity | now rewrite IH].
Qed.

Lemma substring_append_right k r :
  substring (String.length k) (String.length r) (k ++ r) = r.
Proof.
  induction k as [|a k IH]; cbn; [apply substring_full | exact IH].
Qed.

Lemma length_append a b :
  String.length (a ++ b) = (String.length a + String.length b)%nat.
Proof. induction a as [|x a IH]; cbn; [reflexivity | now rewrite IH]. Qed.

Lemma from_after_colon k c r :
  from (String.length k + 1) (k ++ String c r) = r.
Proof.
  unfold from. rewrite length_append. cbn [String.length].
  replace (String.length k + S (String.length r) - (String.length k + 1))%nat
    with (String.length r) by lia.
  replace (String.length k + 1)%nat with (String.length (k ++ str c))
    by (rewrite length_append; reflexivity).
  replace (k ++ String c r) with ((k ++ str c) ++ r)
    by (now rewrite append_assoc).
  apply substring_append_right.
Qed.

Lemma strchr_split h c n :
  strchr h c = Some n ->
  h = substring 0 n h ++ String c (from (n + 1) h) /\
  strchr (substring 0 n h) c = None /\
  String.length (substring 0 n h) = n.
Proof.
  revert n. induction h as [|a h IH]; intros n; [discriminate|].
  cbn [strchr]. destruct (Ascii.eqb_spec a c) as [->|Hac].
  - intros [= <-]. cbn. unfold from. cbn.
    rewrite Nat.sub_0_r, substring_full. repeat split.
  - destruct (strchr h c) as [k|] eqn:E; [|discriminate].
    intros [= <-]. destruct (IH k eq_refl) as (H1 & H2 & H3).
    cbn [substring append strchr String.length].
    apply Ascii.eqb_neq in Hac. rewrite Hac, H2, H3.
    repeat split. f_equal.
    replace (from (S k + 1) (String a h)) with (from (k + 1) h); [exact H1|].
    unfold from. cbn [String.length].
    replace (S k + 1)%nat with (S (S k)) by lia.
    replace (k + 1)%nat with (S k) by lia. reflexivity.
Qed.

Lemma skip_spaces_spaces n v :
  (char_at v 0 =? " ")%char = false -> skip_spaces (spaces n ++ v) = v.
Proof.
  intros Hv. induction n as [|n IH]; [|exact IH].
  cbn. destruct v as [|a v]; [reflexivity|].
  cbn in Hv. cbn. now rewrite Hv.
Qed.

Lemma skip_spaces_split r :
  (char_at (skip_spaces r) 0 =? " ")%char = false /\
  exists n, r = spaces n ++ skip_spaces r.
Proof.
  induction r as [|a r (IH1 & n & IH2)].
  - split; [reflexivity | exists 0%nat; reflexivity].
  - cbn [skip_spaces]. destruct (Ascii.eqb_spec a " ") as [->|Ha].
    + split; [exact IH1|]. exists (S n). cbn. now rewrite <- IH2.
    + split; [cbn; now apply Ascii.eqb_neq | exists 0%nat; reflexivity].
Qed.

(** X6: the header split is exact both ways: a header splits into a key and
    a value exactly when it is the key, free of colons, a colon, some
    spaces, and the value, which does not start with a space. *)
Theorem split_header_exact (h key value : string) :
  split_header h = Some (key, value) <->
  strchr key ":" = None /\
  (char_at value 0 =? " ")%char = false /\
  exists n, h = key ++ ":" ++ spaces n ++ value.
Proof.
  unfold split_header, cut_at. split.
  - destruct (strchr h ":") as [c|] eqn:E; [|discriminate].
    intros [= <- <-]. destruct (strchr_split _ _ _ E) as (H1 & H2 & _).
    destruct (skip_spaces_split (from (c + 1) h)) as (H3 & n & H4).
    repeat split; [exact H2 | exact H3|].
    exists n. cbn [append]. rewrite <- H4. exact H1.
  - intros (Hk & Hv & n & ->). cbn [append].
    rewrite (strchr_append_miss _ _ _ Hk), substring_append_left,
            from_after_colon, (skip_spaces_spaces _ _ Hv).
    reflexivity.
Qed.

Lemma flat_parsed (f : string -> string) (g : string * string -> string) l :
  (forall h, f h = match split_header h with Some p => g p | None => "" end) ->
  flat (map f l) = flat (map g (parsed l)).
Proof.
  intros Hf. induction l as [|h l IH]; [reflexivity|].
  cbn [map parsed]. unfold flat in *. cbn [fold_right]. rewrite IH, Hf.
  destruct (split_header h); reflexivity.
Qed.

Lemma output_header_calls margin req :
  output (for_headers (header_call margin)) req
  = flat (map (fun p => margin ++ ".header(" ++ dq ++ fst p ++ dq ++ ", "
                        ++ dq ++ snd p ++ dq ++ ")" ++ nl)
              (parsed (header_list req))).
Proof.
  rewrite output_for_headers by (intros ?; prove_printer).
  unfold header_list.
  rewrite <- (flat_parsed
                (fun h => match split_header h with
                          | Some (key, value) =>
                              margin ++ ".header(" ++ dq ++ key ++ dq ++ ", "
                              ++ dq ++ value ++ dq ++ ")" ++ nl
                          | None => ""
                          end)).
  - rewrite map_map. f_equal. apply map_ext. intros i.
    apply output_header_call.
  - intros h. destruct (split_header h) as [[k v]|]; reflexivity.
Qed.

(** ** Further properties of the generators *)

Lemma output_javascript_headers req :
  output javascript_headers req
  = if (0 <? header_count req)%Z
    then ("  headers: {" ++ nl) ++ output (for_headers quoted_pair) req
         ++ ("  }," ++ nl)
    else "".
Proof.
  unfold javascript_headers. output_norm. rewrite Z.gtb_ltb. reflexivity.
Qed.

Lemma output_python_headers req :
  output python_headers req
  = if (0 <? header_count req)%Z
    then ("headers = {" ++ nl) ++ output (for_headers quoted_pair) req
         ++ ("}" ++ nl ++ nl)
    else "".
Proof.
  unfold python_headers. output_norm. rewrite Z.gtb_ltb. reflexivity.
Qed.

(** X7: the JavaScript generator writes its banner, the [fetch] line with
    the URL, the method line, the header block, then the body line exactly
    when the body is not empty, as a [JSON.stringify] of the body text when
    the body starts with a brace or a bracket and as a quoted string
    otherwise, and the fixed [then]/[catch] chain. *)
Theorem javascript_layout (req : Request) :
  output generate_javascript_code req
  = (COLOR_GREEN ++ "=== JavaScript (Fetch API) ===" ++ COLOR_RESET ++ nl)
    ++ ("fetch('" ++ url req ++ "', {" ++ nl)
    ++ ("  method: '" ++ method req ++ "'," ++ nl)
    ++ output javascript_headers req
    ++ (if (body req =? "")%string then ""
        else if (char_at (body req) 0 =? "{")%char
                || (char_at (body req) 0 =? "[")%char
             then "  body: JSON.stringify(" ++ body req ++ ")" ++ nl
             else "  body: '" ++ body req ++ "'" ++ nl)
    ++ ("})" ++ nl)
    ++ ("  .then(response => response.json())" ++ nl)
    ++ ("  .then(data => console.log(data))" ++ nl)
    ++ ("  .catch(error => console.error('Error:', error));" ++ nl ++ nl).
Proof.
  unfold generate_javascript_code. output_norm. rewrite nonempty_eqb.
  destruct (body req =? "")%string; reflexivity.
Qed.

(** X8: the Python generator defines the [headers] dictionary exactly when
    it passes [headers=headers], which is when a header is in use, and
    defines [data] exactly when it passes [data=data], which is when the
    body is not empty; between them stands the call picked by the method. *)
Theorem python_layout (req : Request) :
  output generate_python_code req
  = (COLOR_GREEN ++ "=== Python (requests) ===" ++ COLOR_RESET ++ nl)
    ++ ("import requests" ++ nl ++ "import json" ++ nl ++ nl)
    ++ ("url = '" ++ url req ++ "'" ++ nl)
    ++ (if (0 <? header_count req)%Z
        then ("headers = {" ++ nl) ++ output (for_headers quoted_pair) req
             ++ ("}" ++ nl ++ nl)
        else "")
    ++ (if (body req =? "")%string then ""
        else "data = '''" ++ body req ++ "'''" ++ nl ++ nl)
    ++ ("response = requests." ++ call_name (method req) ++ "(url")
    ++ (if (0 <? header_count req)%Z then ", headers=headers" else "")
    ++ (if (body req =? "")%string then "" else ", data=data")
    ++ (")" ++ nl)
    ++ ("print(response.json())" ++ nl ++ nl).
Proof.
  unfold generate_python_code. output_norm.
  rewrite output_python_headers, !nonempty_eqb, Z.gtb_ltb.
  destruct (body req =? "")%string, (0 <? header_count req)%Z; reflexivity.
Qed.

(** X9: the Rust generator declares [body] exactly when it chains
    [.body(body)], which is when the body is not empty, and chains one
    [.header(key, value)] call per header in use that has a colon, in
    order, after the call picked by the method. *)
Theorem rust_layout (req : Request) :
  output generate_rust_code req
  = (COLOR_GREEN ++ "=== Rust (reqwest) ===" ++ COLOR_RESET ++ nl)
    ++ ("use reqwest;" ++ nl ++ nl)
    ++ ("#[tokio::main]" ++ nl)
    ++ ("async fn main() -> Result<(), Box<dyn std::error::Error>> {" ++ nl)
    ++ ("    let client = reqwest::Client::new();" ++ nl)
    ++ (if (body req =? "")%string then ""
        else "    let body = r#" ++ dq ++ body req ++ dq ++ "#;" ++ nl ++ nl)
    ++ ("    let response = client." ++ call_name (method req)
        ++ "(" ++ dq ++ url req ++ dq ++ ")" ++ nl)
    ++ flat (map (fun p => "        " ++ ".header(" ++ dq ++ fst p ++ dq ++ ", "
                           ++ dq ++ snd p ++ dq ++ ")" ++ nl)
                 (parsed (header_list req)))
    ++ (if (body req =? "")%string then "" else "        .body(body)" ++ nl)
    ++ ("        .send()" ++ nl)
    ++ ("        .await?;" ++ nl ++ nl)
    ++ ("    let body = response.text().await?;" ++ nl)
    ++ ("    println!(" ++ dq ++ "{}" ++ dq ++ ", body);" ++ nl)
    ++ ("    Ok(())" ++ nl)
    ++ ("}" ++ nl ++ nl).
Proof.
  unfold generate_rust_code, rust_headers. output_norm.
  rewrite output_header_calls, !nonempty_eqb.
  destruct (body req =? "")%string; reflexivity.
Qed.

(** X10: the Java generator declares [jsonBody] exactly when it passes it to
    the builder, which is when the body is not empty; it chains one
    [.header(key, value)] call per header in use that has a colon, in
    order; and the builder call is named [GET], [POST], [PUT] or [DELETE]
    for these methods and [method] for any other when there is a body, and
    by the method itself when there is none. *)
Theorem java_layout (req : Request) :
  output generate_java_code req
  = (COLOR_GREEN ++ "=== Java (HttpClient) ===" ++ COLOR_RESET ++ nl)
    ++ ("import java.net.URI;" ++ nl)
    ++ ("import java.net.http.HttpClient;" ++ nl)
    ++ ("import java.net.http.HttpRequest;" ++ nl)
    ++ ("import java.net.http.HttpResponse;" ++ nl ++ nl)
    ++ ("public class HttpExample {" ++ nl)
    ++ ("    public static void main(String[] args) throws Exception {" ++ nl)
    ++ ("        HttpClient client = HttpClient.newHttpClient();" ++ nl)
    ++ (if (body req =? "")%string then ""
        else ("        String jsonBody = " ++ dq ++ dq ++ dq ++ nl)
             ++ ("            " ++ body req ++ nl)
             ++ ("            " ++ dq ++ dq ++ dq ++ ";" ++ nl ++ nl))
    ++ ("        HttpRequest.Builder builder = HttpRequest.newBuilder()" ++ nl)
    ++ ("            .uri(URI.create(" ++ dq ++ url req ++ dq ++ "))" ++ nl)
    ++ flat (map (fun p => "            " ++ ".header(" ++ dq ++ fst p ++ dq
                           ++ ", " ++ dq ++ snd p ++ dq ++ ")" ++ nl)
                 (parsed (header_list req)))
    ++ (if (body req =? "")%string
        then "            ." ++ method req
             ++ "(HttpRequest.BodyPublishers.noBody());" ++ nl
        else "            ." ++ publisher_name (method req)
             ++ "(HttpRequest.BodyPublishers.ofString(jsonBody));" ++ nl)
    ++ (nl ++ "        HttpRequest request = builder.build();" ++ nl)
    ++ ("        HttpResponse<String> response = client.send(request," ++ nl)
    ++ ("            HttpResponse.BodyHandlers.ofString());" ++ nl)
    ++ ("        System.out.println(response.body());" ++ nl)
    ++ ("    }" ++ nl)
    ++ ("}" ++ nl ++ nl).
Proof.
  unfold generate_java_code, java_headers. output_norm.
  rewrite output_header_calls, !nonempty_eqb.
  destruct (body req =? "")%string; reflexivity.
Qed.

(** ** Further properties of the [Content-Type] step *)

(** What the step does to the request, by the test it makes. *)
Lemma add_content_type_request w :
  (0 <= header_count (last_request w))%Z ->
  (Spec.opens_json (char_at (body (last_request w)) 0)
   && negb (existsb Spec.names_content_type (header_list (last_request w)))
   && (header_count (last_request w) <? MAX_HEADERS)%Z = true /\
   header_list (last_request (add_content_type w))
   = (header_list (last_request w) ++ [Spec.CONTENT_TYPE_JSON])%list /\
   header_count (last_request (add_content_type w))
   = (header_count (last_request w) + 1)%Z /\
   body (last_request (add_content_type w)) = body (last_request w))
  \/
  (Spec.opens_json (char_at (body (last_request w)) 0)
   && negb (existsb Spec.names_content_type (header_list (last_request w)))
   && (header_count (last_request w) <? MAX_HEADERS)%Z = false /\
   add_content_type w = w).
Proof.
  intros Hn. unfold add_content_type, with_req, Spec.opens_json.
  destruct ((char_at (body (last_request w)) 0 =? "{")%char
            || (char_at (body (last_request w)) 0 =? "[")%char);
    cbn [when andb]; [|right; split; reflexivity].
  rewrite has_content_type_from_existsb. fold (header_list (last_request w)).
  destruct (negb (existsb Spec.names_content_type (header_list (last_request w)))
            && (header_count (last_request w) <? MAX_HEADERS)%Z);
    cbn [when]; [left|right; split; reflexivity].
  unfold andthen, with_req, store_header, incr_header_count, printf.
  cbn [last_request stdout url method body header_count with_header].
  split; [reflexivity|]. split; [|split; reflexivity].
  unfold header_list at 1. cbn [header_count].
  apply (header_list_appended (last_request w) Spec.CONTENT_TYPE_JSON Hn).
Qed.

(** X11: after the step, a request with room for one more header whose body
    starts with a brace or a bracket has a [Content-Type] header in use,
    its own or the one added. *)
Theorem content_type_present_after (w : World) :
  (0 <= header_count (last_request w) < MAX_HEADERS)%Z ->
  Spec.opens_json (char_at (body (last_request w)) 0) = true ->
  existsb Spec.names_content_type
          (header_list (last_request (add_content_type w))) = true.
Proof.
  intros [Hn Hmax] Hopen.
  destruct (add_content_type_request w Hn) as [(_ & Hl & _)|(Hc & ->)].
  - rewrite Hl, existsb_app. cbn. apply orb_true_r.
  - rewrite Hopen in Hc. apply Z.ltb_lt in Hmax. rewrite Hmax in Hc.
    rewrite andb_true_r in Hc. cbn in Hc.
    now apply negb_false_iff in Hc.
Qed.

Lemma content_type_present_after_witness :
  existsb Spec.names_content_type
    (header_list
       (last_request
          (add_content_type
             {| last_request :=
                  {| url := "http://localhost:8080/items"; method := "PUT";
                     headers := ["Accept: */*"]; header_count := 1;
                     body := "[1,2]"; follow_redirects := 1; verbose := 0;
                     timeout := 0; auth := "" |};
                stdout := "" |}))) = true.
Proof.
  apply (content_type_present_after
           {| last_request :=
                {| url := "http://localhost:8080/items"; method := "PUT";
                   headers := ["Accept: */*"]; header_count := 1;
                   body := "[1,2]"; follow_redirects := 1; verbose := 0;
                   timeout := 0; auth := "" |};
              stdout := "" |}).
  - cbn. unfold MAX_HEADERS. lia.
  - reflexivity.
Defined.

(** X12: running the step a second time changes nothing: the header it adds
    is one it then finds. *)
Theorem add_content_type_idempotent (w : World) :
  (0 <= header_count (last_request w))%Z ->
  last_request (add_content_type (add_content_type w))
  = last_request (add_content_type w).
Proof.
  intros Hn.
  destruct (add_content_type_request w Hn) as [(_ & Hl & Hc & Hb)|(_ & E)].
  - destruct (add_content_type_request (add_content_type w)) as [(Hc2 & _)|(_ & ->)];
      [lia| |reflexivity].
    rewrite Hl, existsb_app in Hc2. cbn in Hc2.
    rewrite orb_true_r, andb_false_r in Hc2. discriminate Hc2.
  - rewrite E, E. reflexivity.
Qed.

Lemma add_content_type_idempotent_witness :
  last_request
    (add_content_type
       (add_content_type
          {| last_request :=
               {| url := "http://localhost:8080/items"; method := "POST";
                  headers := []; header_count := 0; body := "{}";
                  follow_redirects := 1; verbose := 0; timeout := 0;
                  auth := "" |};
             stdout := "" |}))
  = last_request
      (add_content_type
         {| last_request :=
              {| url := "http://localhost:8080/items"; method := "POST";
                 headers := []; header_count := 0; body := "{}";
                 follow_redirects := 1; verbose := 0; timeout := 0;
                 auth := "" |};
            stdout := "" |}).
Proof.
  apply (add_content_type_idempotent
           {| last_request :=
                {| url := "http://localhost:8080/items"; method := "POST";
                   headers := []; header_count := 0; body := "{}";
                   follow_redirects := 1; verbose := 0; timeout := 0;
                   auth := "" |};
              stdout := "" |}).
  cbn. lia.
Defined.

(** ** The code menu and the view of the last request *)

Ltac prove_printer_all :=
  prove_printer_with
    ltac:(first [ apply printer_generate_curl_code
                | apply printer_generate_javascript_code
                | apply printer_generate_python_code
                | apply printer_generate_rust_code
                | apply printer_generate_java_code
                | assumption ]).

Lemma printer_generate_code_menu choice : printer (generate_code_menu choice).
Proof. unfold generate_code_menu. prove_printer_all. Qed.

Lemma printer_view_request : printer view_request.
Proof. unfold view_request. prove_printer. Qed.

Ltac output_step_all :=
  match goal with
  | |- context [output (?p ;; ?q) ?r] =>
      rewrite (output_andthen p q r) by prove_printer_all
  | |- context [output (printf ?s) ?r] => rewrite (output_printf s r)
  end.

(** X13: the code menu never changes the request; after the same menu text,
    choices 1 to 5 give the output of the curl, JavaScript, Python, Rust
    and Java generator, choice 6 gives the five outputs one after the other
    in that order, and any other number gives the invalid-choice line and
    runs no generator. *)
Theorem generate_code_menu_dispatch :
  exists menu : string,
    (forall choice w,
       last_request (generate_code_menu choice w) = last_request w) /\
    (forall req,
       output (generate_code_menu 1) req = menu ++ output generate_curl_code req /\
       output (generate_code_menu 2) req = menu ++ output generate_javascript_code req /\
       output (generate_code_menu 3) req = menu ++ output generate_python_code req /\
       output (generate_code_menu 4) req = menu ++ output generate_rust_code req /\
       output (generate_code_menu 5) req = menu ++ output generate_java_code req /\
       output (generate_code_menu 6) req
       = menu ++ output generate_curl_code req
              ++ output generate_javascript_code req
              ++ output generate_python_code req
              ++ output generate_rust_code req
              ++ output generate_java_code req) /\
    (forall choice req,
       (choice < 1 \/ 6 < choice)%Z ->
       output (generate_code_menu choice) req
       = menu ++ COLOR_RED ++ "[!] Invalid choice" ++ COLOR_RESET ++ nl).
Proof.
  eexists. split; [|split].
  - intros choice w. apply printer_frame, printer_generate_code_menu.
  - intros req. unfold generate_code_menu. cbn [Z.eqb Pos.eqb].
    repeat output_step_all. rewrite <- !append_assoc.
    repeat split; reflexivity.
  - intros choice req Hc. unfold generate_code_menu.
    repeat match goal with
           | |- context [(choice =? ?n)%Z] =>
               destruct (Z.eqb_spec choice n); [lia|]
           end.
    repeat output_step_all. rewrite <- !append_assoc.
    rewrite !append_assoc. reflexivity.
Qed.

(** X14: viewing the last request leaves it unchanged and writes the URL,
    the method, the headers in use, one per line and in order, under their
    title when there is one, the body under its title when it is not empty,
    the redirect option as Yes or No, and the timeout in seconds. *)
Theorem view_request_layout (w : World) :
  last_request (view_request w) = last_request w /\
  output view_request (last_request w)
  = (nl ++ COLOR_CYAN ++ "=== Last Request ===" ++ COLOR_RESET ++ nl)
    ++ (COLOR_BOLD ++ "URL:" ++ COLOR_RESET ++ " " ++ url (last_request w) ++ nl)
    ++ (COLOR_BOLD ++ "Method:" ++ COLOR_RESET ++ " "
        ++ method (last_request w) ++ nl)
    ++ (if (0 <? header_count (last_request w))%Z
        then (COLOR_BOLD ++ "Headers:" ++ COLOR_RESET ++ nl)
             ++ flat (map (fun h => "  " ++ h ++ nl)
                          (header_list (last_request w)))
        else "")
    ++ (if (body (last_request w) =? "")%string then ""
        else COLOR_BOLD ++ "Body:" ++ COLOR_RESET ++ nl
             ++ body (last_request w) ++ nl)
    ++ (COLOR_BOLD ++ "Follow Redirects:" ++ COLOR_RESET ++ " "
        ++ (if (follow_redirects (last_request w) =? 0)%Z then "No" else "Yes")
        ++ nl)
    ++ (COLOR_BOLD ++ "Timeout:" ++ COLOR_RESET ++ " "
        ++ print_long (timeout (last_request w)) ++ " seconds" ++ nl)
    ++ nl.
Proof.
  split; [apply printer_frame, printer_view_request|].
  unfold view_request. output_norm.
  rewrite output_for_headers by (intros ?; prove_printer).
  rewrite nonempty_eqb, Z.gtb_ltb. unfold header_list. rewrite map_map.
  destruct (body (last_request w) =? "")%string,
           (0 <? header_count (last_request w))%Z; reflexivity.
Qed.

(** ** Reading the body *)

Lemma length_chop c l : (String.length (chop c l) <= String.length l)%nat.
Proof.
  induction l as [|a l IH]; [cbn; lia|].
  destruct l as [|b l].
  - cbn. destruct (a =? c)%char; cbn; lia.
  - change (chop c (String a (String b l))) with (String a (chop c (String b l))).
    cbn [String.length] in *. lia.
Qed.


Lemma size_sub_small a b :
  (0 <= b <= a)%Z -> (a <= 2 ^ 63)%Z -> size_sub a b = (a - b)%Z.
Proof. intros H1 H2. unfold size_sub. apply Z.mod_small. lia. Qed.

Lemma size_add_small a b :
  (0 <= a)%Z -> (0 <= b)%Z -> (a + b < 2 ^ 64)%Z -> size_add a b = (a + b)%Z.
Proof. intros H1 H2 H3. unfold size_add. apply Z.mod_small. lia. Qed.

Lemma length_c_string s : (String.length (c_string s) <= String.length s)%nat.
Proof.
  induction s as [|a s IH]; [cbn; lia|].
  cbn. destruct (a =? NUL)%char; cbn; lia.
Qed.

Lemma length_take_line n input :
  (String.length (fst (take_line n input)) <= n)%nat.
Proof.
  revert input. induction n as [|n IH]; intros input; [cbn; lia|].
  destruct input as [|a r]; [cbn; lia|].
  cbn. destruct (a =? LF)%char; [cbn; lia|].
  specialize (IH r). destruct (take_line n r) as [l m]. cbn in *. lia.
Qed.

(** A read takes at least one character and leaves the rest. *)
Lemma take_line_left n input :
  (String.length (snd (take_line n input)) <= String.length input)%nat /\
  ((0 < n)%nat -> input <> "" ->
   (String.length (snd (take_line n input)) < String.length input)%nat).
Proof.
  revert input. induction n as [|n IH]; intros input; [cbn; lia|].
  destruct input as [|a r]; [cbn; split; [lia | congruence]|].
  cbn. destruct (a =? LF)%char; [cbn; lia|].
  destruct (IH r) as [H1 _]. destruct (take_line n r) as [l m]. cbn in *. lia.
Qed.

Lemma fgets_some size input line more :
  (2 <= size)%nat ->
  fgets size input = Some (line, more) ->
  (String.length line <= size - 1)%nat /\
  (String.length more < String.length input)%nat.
Proof.
  intros Hs. unfold fgets. destruct input as [|a r]; [discriminate|].
  pose proof (length_take_line (size - 1) (String a r)) as H1.
  destruct (take_line_left (size - 1) (String a r)) as [_ H2].
  destruct (take_line (size - 1) (String a r)) as [l m].
  intros [= <- <-]. pose proof (length_c_string l). cbn [fst snd] in *.
  split; [lia|]. apply H2; [lia | discriminate].
Qed.

Lemma read_body_lines_bound fuel max_len body first_line input :
  (2 <= max_len <= 2 ^ 63)%Z ->
  (Z.of_nat (String.length body) <= max_len - 1)%Z ->
  (Z.of_nat (String.length (fst (read_body_lines fuel max_len body first_line input)))
   <= max_len - 1)%Z.
Proof.
  intros Hm. revert body first_line input.
  induction fuel as [|fuel IH]; intros body first_line input Hb; [exact Hb|].
  cbn [read_body_lines]. rewrite !size_sub_small by lia.
  destruct (Z.ltb_spec (Z.of_nat (String.length body)) (max_len - 1)) as [Ht|_];
    [|exact Hb].
  destruct (fgets 1024 input) as [[line more]|] eqn:E; [|exact Hb].
  destruct ((line =? "@@@" ++ nl)%string || (line =? "@@@" ++ str CR ++ nl)%string);
    [exact Hb|].
  apply fgets_some in E as [Hl _]; [|lia].
  rewrite size_add_small by lia.
  destruct (Z.ltb_spec (Z.of_nat (String.length body) + Z.of_nat (String.length line))
                       (max_len - 1)) as [Hfit|_]; [|now apply IH].
  apply IH. rewrite length_append.
  pose proof (length_chop CR (chop LF line)).
  pose proof (length_chop LF line).
  destruct (negb first_line && (Z.of_nat (String.length body) <? max_len - 2)%Z);
    [rewrite length_append; cbn [String.length nl str]|]; lia.
Qed.


(** X15: the body read never outgrows its buffer: whatever the input, the
    text stored has at most [max_len - 1] characters, which leaves room for
    the terminating NUL written at [body[total]]. *)
Theorem read_multiline_body_fits (max_len : Z) (c : Console) :
  (2 <= max_len <= 2 ^ 63)%Z ->
  (Z.of_nat (String.length (body (request (read_multiline_body max_len c))))
   <= max_len - 1)%Z.
Proof.
  intros Hm. unfold read_multiline_body.
  pose proof (read_body_lines_bound
                (S (String.length (stdin c))) max_len "" true (stdin c) Hm) as H.
  cbn [say stdin] in *.
  destruct (read_body_lines _ max_len "" true (stdin c)) as [text more].
  cbn in *. apply H. lia.
Qed.

Lemma read_multiline_body_fits_witness :
  (Z.of_nat
     (String.length
        (body (request
                 (read_multiline_body MAX_BODY_LEN
                    {| world := {| last_request := initial_request; stdout := "" |};
                       stdin := "{}" ++ nl ++ "@@@" ++ nl |}))))
   <= MAX_BODY_LEN - 1)%Z.
Proof.
  apply (read_multiline_body_fits MAX_BODY_LEN
           {| world := {| last_request := initial_request; stdout := "" |};
              stdin := "{}" ++ nl ++ "@@@" ++ nl |}).
  unfold MAX_BODY_LEN. lia.
Defined.
















(** ** Configuring a request *)

Lemma cut_newline_lf_free s : strchr (cut_newline s) LF = None.
Proof.
  unfold cut_newline, cut_at. destruct (strchr s LF) as [k|] eqn:E; [|exact E].
  now destruct (strchr_split _ _ _ E) as (_ & H & _).
Qed.

Lemma length_cut_newline s :
  (String.length (cut_newline s) <= String.length s)%nat.
Proof.
  unfold cut_newline, cut_at. destruct (strchr s LF) as [k|] eqn:E; [|lia].
  destruct (strchr_split _ _ _ E) as (H1 & _ & H3).
  rewrite H1 at 2. rewrite length_append, H3. lia.
Qed.

Lemma length_upcase s : String.length (upcase s) = String.length s.
Proof. induction s as [|a s IH]; cbn; [reflexivity | now rewrite IH]. Qed.

Lemma upcase_char_idempotent a : upcase_char (upcase_char a) = upcase_char a.
Proof. destruct a as [[] [] [] [] [] [] [] []]; reflexivity. Qed.

Lemma upcase_idempotent s : upcase (upcase s) = upcase s.
Proof.
  induction s as [|a s IH]; cbn; [reflexivity|].
  now rewrite upcase_char_idempotent, IH.
Qed.

Lemma upcase_char_lf a : (upcase_char a =? LF)%char = (a =? LF)%char.
Proof. destruct a as [[] [] [] [] [] [] [] []]; reflexivity. Qed.

Lemma upcase_lf_free s : strchr s LF = None -> strchr (upcase s) LF = None.
Proof.
  induction s as [|a s IH]; [reflexivity|].
  cbn. rewrite upcase_char_lf. destruct (a =? LF)%char; [discriminate|].
  destruct (strchr s LF); [discriminate|]. intros _. now rewrite IH.
Qed.

Lemma upcase_nonempty s : s <> "" -> upcase s <> "".
Proof. destruct s; [congruence | discriminate]. Qed.

Lemma nonempty_true s : nonempty s = true <-> s <> "".
Proof. destruct s; cbn; split; congruence. Qed.

Lemma read_world size buf c : world (snd (read size buf c)) = world c.
Proof.
  unfold read. destruct (fgets size (stdin c)) as [[l m]|]; reflexivity.
Qed.

Lemma read_request size buf c : request (snd (read size buf c)) = request c.
Proof. unfold request. now rewrite read_world. Qed.

Lemma read_fits size buf c :
  (2 <= size)%nat -> (String.length buf < size)%nat ->
  (String.length (fst (read size buf c)) < size)%nat.
Proof.
  intros Hs Hb. unfold read.
  destruct (fgets size (stdin c)) as [[l m]|] eqn:E; [|exact Hb].
  apply fgets_some in E as [H _]; [cbn; lia | exact Hs].
Qed.

Lemma length_nth_fits (slots : list string) i n :
  (0 < n)%nat ->
  Forall (fun h => (String.length h < n)%nat) slots ->
  (String.length (nth i slots "") < n)%nat.
Proof.
  intros Hn H. revert i. induction H as [|h l Hh Hl IH]; intros i.
  - destruct i; cbn; lia.
  - destruct i; [exact Hh | apply IH].
Qed.

Lemma set_slot_fits i v (slots : list string) n :
  (0 < n)%nat -> (String.length v < n)%nat ->
  Forall (fun h => (String.length h < n)%nat) slots ->
  Forall (fun h => (String.length h < n)%nat) (set_slot i v slots).
Proof.
  intros Hn Hv. revert slots. induction i as [|i IH]; intros slots H.
  - destruct slots; inversion H; subst; constructor; auto.
  - destruct slots as [|h l]; cbn [set_slot].
    + constructor; [cbn; lia | apply IH; constructor].
    + inversion H; subst. constructor; auto.
Qed.

Lemma length_set_slot i v (slots : list string) :
  List.length (set_slot i v slots) = Nat.max (S i) (List.length slots).
Proof.
  revert slots. induction i as [|i IH]; intros slots.
  - destruct slots; cbn; lia.
  - destruct slots as [|h l]; cbn [set_slot List.length]; rewrite IH; cbn; lia.
Qed.

Lemma header_list_with_header_beyond i v req :
  (Z.to_nat (header_count req) <= i)%nat ->
  header_list (with_header i v req) = header_list req.
Proof.
  intros Hi. unfold header_list. cbn [with_header header_count].
  apply map_ext_in. intros j Hj. apply in_seq in Hj.
  rewrite header_at_with_header.
  destruct (Nat.eqb_spec j i); [lia | reflexivity].
Qed.

Lemma header_list_counted v req :
  (0 <= header_count req)%Z ->
  header_list (set_header_count (header_count req + 1)
                 (with_header (Z.to_nat (header_count req)) v req))
  = (header_list req ++ [v])%list.
Proof.
  intros Hn. unfold header_list at 1. cbn [set_header_count header_count].
  change (header_at (set_header_count (header_count req + 1)
                       (with_header (Z.to_nat (header_count req)) v req)))
    with (header_at (with_header (Z.to_nat (header_count req)) v req)).
  now apply header_list_appended.
Qed.

(** What storing one more header keeps. *)
Lemma headers_sound_counted v req :
  headers_sound req -> (header_count req < MAX_HEADERS)%Z ->
  v <> "" -> strchr v LF = None ->
  headers_sound (set_header_count (header_count req + 1)
                   (with_header (Z.to_nat (header_count req)) v req)).
Proof.
  intros [Hc Hs] Hlt Hv Hlf. split; [cbn; lia|].
  intros h Hin. rewrite header_list_counted in Hin by lia.
  apply in_app_or in Hin as [Hin|[<-|[]]]; [now apply Hs | now split].
Qed.

Lemma slots_fit_with_header v req :
  slots_fit req -> (0 <= header_count req < MAX_HEADERS)%Z ->
  (String.length v < MAX_HEADER_LEN)%nat ->
  slots_fit (with_header (Z.to_nat (header_count req)) v req).
Proof.
  intros [Hf Hl] Hc Hv. split; cbn [with_header headers].
  - apply set_slot_fits; [unfold MAX_HEADER_LEN; lia | exact Hv | exact Hf].
  - rewrite length_set_slot. unfold MAX_HEADERS in *. lia.
Qed.

Lemma read_headers_keeps fuel c :
  headers_sound (request c) ->
  headers_sound (request (read_headers fuel c)) /\
  url (request (read_headers fuel c)) = url (request c) /\
  method (request (read_headers fuel c)) = method (request c) /\
  body (request (read_headers fuel c)) = body (request c) /\
  (slots_fit (request c) -> slots_fit (request (read_headers fuel c))).
Proof.
  revert c. induction fuel as [|fuel IH]; intros c Hs.
  { split; [exact Hs|]. repeat (split; [reflexivity|]). auto. }
  cbn [read_headers].
  destruct (Z.ltb_spec (header_count (request c)) MAX_HEADERS) as [Hlt|_].
  2:{ split; [exact Hs|]. repeat (split; [reflexivity|]). auto. }
  change (request (say _ c)) with (request c).
  set (c1 := say _ c).
  pose proof (read_request MAX_HEADER_LEN
                (header_at (request c) (Z.to_nat (header_count (request c)))) c1) as Hr.
  pose proof (read_fits MAX_HEADER_LEN
                (header_at (request c) (Z.to_nat (header_count (request c)))) c1) as Hfit.
  destruct (read MAX_HEADER_LEN _ c1) as [header c2]. cbn [fst snd] in Hr, Hfit.
  change (request c1) with (request c) in Hr.
  pose proof (cut_newline_lf_free header) as Hlf.
  pose proof (length_cut_newline header) as Hlen.
  set (h := cut_newline header) in *.
  assert (Hc : (0 <= header_count (request c))%Z) by apply Hs.
  assert (Hh : slots_fit (request c) -> (String.length h < MAX_HEADER_LEN)%nat).
  { intros Hslots.
    apply Nat.le_lt_trans with (String.length header); [exact Hlen|].
    apply Hfit; [unfold MAX_HEADER_LEN; lia|].
    apply length_nth_fits; [unfold MAX_HEADER_LEN; lia | apply Hslots]. }
  destruct (nonempty h) eqn:Hne.
  - set (c3 := update _ (update (with_header _ h) c2)).
    assert (E3 : request c3
                 = set_header_count (header_count (request c) + 1)
                     (with_header (Z.to_nat (header_count (request c))) h (request c))).
    { unfold c3, update, request. cbn. fold (request c2). rewrite Hr. reflexivity. }
    destruct (IH c3) as (H1 & H2 & H3 & H4 & H5).
    { rewrite E3. apply headers_sound_counted; auto. now apply nonempty_true. }
    rewrite E3 in H2, H3, H4, H5. cbn in H2, H3, H4.
    split; [exact H1|]. split; [exact H2|]. split; [exact H3|].
    split; [exact H4|].
    intros Hslots. apply H5.
    destruct (slots_fit_with_header h (request c) Hslots) as [Ha Hb];
      [lia | auto |].
    split; assumption.
  - assert (E3 : request (update (with_header (Z.to_nat (header_count (request c))) h) c2)
                 = with_header (Z.to_nat (header_count (request c))) h (request c)).
    { unfold update, request. cbn. fold (request c2). rewrite Hr. reflexivity. }
    rewrite E3. split; [|repeat (split; [reflexivity|])].
    + split; [apply Hs|].
      intros x Hx. rewrite header_list_with_header_beyond in Hx by lia.
      now apply Hs.
    + intros Hslots. apply slots_fit_with_header; [assumption | lia | auto].
Qed.

(** With fuel for the slots that are left, more fuel changes nothing: the
    header loop ends by its own tests. *)
Lemma read_headers_fuel fuel1 fuel2 c :
  (0 <= header_count (request c))%Z ->
  (Z.to_nat (MAX_HEADERS - header_count (request c)) <= fuel1)%nat ->
  (Z.to_nat (MAX_HEADERS - header_count (request c)) <= fuel2)%nat ->
  read_headers fuel1 c = read_headers fuel2 c.
Proof.
  revert fuel2 c. induction fuel1 as [|fuel1 IH]; intros fuel2 c Hc H1 H2.
  - destruct fuel2 as [|fuel2]; [reflexivity|]. cbn [read_headers].
    destruct (Z.ltb_spec (header_count (request c)) MAX_HEADERS); [lia|reflexivity].
  - cbn [read_headers].
    destruct (Z.ltb_spec (header_count (request c)) MAX_HEADERS) as [Hlt|Hge].
    + destruct fuel2 as [|fuel2]; [lia|]. cbn [read_headers].
      replace (header_count (request c) <? MAX_HEADERS)%Z with true
        by (symmetry; now apply Z.ltb_lt).
      change (request (say _ c)) with (request c).
      set (c1 := say _ c).
      pose proof (read_request MAX_HEADER_LEN
                    (header_at (request c) (Z.to_nat (header_count (request c)))) c1)
        as Hr.
      destruct (read MAX_HEADER_LEN _ c1) as [header c2]. cbn [snd] in Hr.
      change (request c1) with (request c) in Hr.
      destruct (nonempty (cut_newline header)); [|reflexivity].
      set (c3 := update _ (update _ c2)).
      assert (E3 : header_count (request c3) = (header_count (request c) + 1)%Z).
      { unfold c3, update, request. cbn. fold (request c2). now rewrite Hr. }
      apply IH; rewrite E3; lia.
    + destruct fuel2 as [|fuel2]; [reflexivity|]. cbn [read_headers].
      replace (header_count (request c) <? MAX_HEADERS)%Z with false
        by (symmetry; now apply Z.ltb_ge).
      reflexivity.
Qed.

Lemma ask_url_and_method_request c :
  headers (request (ask_url_and_method c)) = headers (request c) /\
  header_count (request (ask_url_and_method c)) = header_count (request c) /\
  body (request (ask_url_and_method c)) = body (request c) /\
  strchr (url (request (ask_url_and_method c))) LF = None /\
  strchr (method (request (ask_url_and_method c))) LF = None /\
  method (request (ask_url_and_method c)) <> "" /\
  upcase (method (request (ask_url_and_method c)))
  = method (request (ask_url_and_method c)) /\
  ((String.length (url (request c)) < MAX_URL_LEN)%nat ->
   (String.length (url (request (ask_url_and_method c))) < MAX_URL_LEN)%nat) /\
  ((String.length (method (request c)) < 16)%nat ->
   (String.length (method (request (ask_url_and_method c))) < 16)%nat).
Proof.
  unfold ask_url_and_method.
  set (c1 := say _ (say _ c)).
  change (request c1) with (request c).
  pose proof (read_request MAX_URL_LEN (url (request c)) c1) as Hr1.
  pose proof (read_fits MAX_URL_LEN (url (request c)) c1) as Hf1.
  destruct (read MAX_URL_LEN (url (request c)) c1) as [u c2].
  cbn [fst snd] in Hr1, Hf1. change (request c1) with (request c) in Hr1.
  set (c3 := say _ (update (set_url (cut_newline u)) c2)).
  assert (E3 : request c3 = set_url (cut_newline u) (request c)).
  { unfold c3, say, update, request. cbn. fold (request c2). now rewrite Hr1. }
  rewrite E3. cbn [set_url method].
  pose proof (read_request 16 (method (request c)) c3) as Hr2.
  pose proof (read_fits 16 (method (request c)) c3) as Hf2.
  destruct (read 16 (method (request c)) c3) as [m c4].
  cbn [fst snd] in Hr2, Hf2. rewrite E3 in Hr2.
  set (m1 := cut_newline m).
  set (m2 := if nonempty m1 then m1 else "GET").
  assert (E5 : request (update (set_method (upcase m2)) c4)
               = set_method (upcase m2) (set_url (cut_newline u) (request c))).
  { unfold update, request. cbn. fold (request c4). now rewrite Hr2. }
  rewrite E5. cbn [set_method set_url url method headers header_count body].
  assert (Hm2 : m2 <> "" /\ strchr m2 LF = None /\
                (String.length m2 <= Nat.max 3 (String.length m))%nat).
  { unfold m2. destruct (nonempty m1) eqn:Hne.
    - split; [now apply nonempty_true|].
      split; [apply cut_newline_lf_free|].
      pose proof (length_cut_newline m). unfold m1. lia.
    - repeat split; [discriminate|].
      change (String.length "GET") with 3%nat. lia. }
  destruct Hm2 as (Hne & Hlf & Hlen).
  split; [reflexivity|]. split; [reflexivity|]. split; [reflexivity|].
  split; [apply cut_newline_lf_free|].
  split; [now apply upcase_lf_free|].
  split; [now apply upcase_nonempty|].
  split; [apply upcase_idempotent|].
  split.
  - intros Hu. pose proof (length_cut_newline u).
    specialize (Hf1 ltac:(unfold MAX_URL_LEN; lia) Hu). lia.
  - intros Hm. rewrite length_upcase.
    specialize (Hf2 ltac:(lia) Hm). lia.
Qed.

Lemma ask_headers_request input c :
  headers_sound (request (snd (ask_headers input c))) /\
  url (request (snd (ask_headers input c))) = url (request c) /\
  method (request (snd (ask_headers input c))) = method (request c) /\
  body (request (snd (ask_headers input c))) = body (request c) /\
  (slots_fit (request c) -> slots_fit (request (snd (ask_headers input c)))).
Proof.
  unfold ask_headers.
  set (c1 := say _ c).
  pose proof (read_request 512 input c1) as Hr.
  destruct (read 512 input c1) as [input' c2]. cbn [fst snd] in Hr.
  change (request c1) with (request c) in Hr.
  set (c3 := update (set_header_count 0) c2).
  assert (E3 : request c3 = set_header_count 0 (request c)).
  { unfold c3, update, request. cbn. fold (request c2). now rewrite Hr. }
  assert (Hs3 : headers_sound (request c3)).
  { rewrite E3. split; [cbn; unfold MAX_HEADERS; lia|]. intros h []. }
  destruct (says_yes input'); cbn [snd].
  - destruct (read_headers_keeps (Z.to_nat MAX_HEADERS) (say ("Enter headers (format: Key: Value, empty line to finish):" ++ nl) c3))
      as (H1 & H2 & H3 & H4 & H5); [exact Hs3|].
    change (request (say _ c3)) with (request c3) in *.
    rewrite E3 in H2, H3, H4, H5.
    split; [exact H1|]. split; [exact H2|]. split; [exact H3|].
    split; [exact H4|]. intros Hf. apply H5. exact Hf.
  - rewrite E3. split; [rewrite <- E3; exact Hs3|].
    repeat (split; [reflexivity|]). auto.
Qed.

(** The step on the request: nothing, or the header in the next slot and
    the count one up. *)
Lemma add_content_type_shape w :
  last_request (add_content_type w) = last_request w \/
  ((header_count (last_request w) < MAX_HEADERS)%Z /\
   last_request (add_content_type w)
   = set_header_count (header_count (last_request w) + 1)
       (with_header (Z.to_nat (header_count (last_request w)))
                    Spec.CONTENT_TYPE_JSON (last_request w))).
Proof.
  unfold add_content_type, with_req.
  destruct (_ || _); cbn [when]; [|left; reflexivity].
  destruct (negb _); cbn [andb when]; [|left; reflexivity].
  destruct (Z.ltb_spec (header_count (last_request w)) MAX_HEADERS);
    cbn [when]; [|left; reflexivity].
  right. split; [assumption | reflexivity].
Qed.

Lemma ask_body_request input c :
  headers_sound (request c) ->
  headers_sound (request (snd (ask_body input c))) /\
  url (request (snd (ask_body input c))) = url (request c) /\
  method (request (snd (ask_body input c))) = method (request c) /\
  (slots_fit (request c) -> slots_fit (request (snd (ask_body input c)))) /\
  (Z.of_nat (String.length (body (request (snd (ask_body input c)))))
   < MAX_BODY_LEN)%Z /\
  (method (request c) = "GET" \/ method (request c) = "DELETE" ->
   body (request (snd (ask_body input c))) = "").
Proof.
  intros Hs. unfold ask_body.
  assert (Hempty :
            forall c', request c' = request c ->
              headers_sound (request (update (set_body "") c')) /\
              url (request (update (set_body "") c')) = url (request c) /\
              method (request (update (set_body "") c')) = method (request c) /\
              (slots_fit (request c) ->
               slots_fit (request (update (set_body "") c'))) /\
              (Z.of_nat (String.length (body (request (update (set_body "") c'))))
               < MAX_BODY_LEN)%Z /\
              (method (request c) = "GET" \/ method (request c) = "DELETE" ->
               body (request (update (set_body "") c')) = "")).
  { intros c' E. unfold update, request in *. cbn. rewrite E.
    split; [exact Hs|]. repeat (split; [reflexivity|]).
    split; [auto|]. split; [unfold MAX_BODY_LEN; lia | reflexivity]. }
  destruct (String.eqb_spec (method (request c)) "GET") as [Hget|Hget];
    cbn [negb andb snd]; [now apply Hempty|].
  destruct (String.eqb_spec (method (request c)) "DELETE") as [Hdel|Hdel];
    cbn [negb andb snd]; [now apply Hempty|].
  set (c1 := say _ c).
  pose proof (read_request 512 input c1) as Hr.
  destruct (read 512 input c1) as [input' c2]. cbn [fst snd] in Hr.
  change (request c1) with (request c) in Hr.
  destruct (says_yes input'); cbn [snd]; [|now apply Hempty].
  pose proof (read_multiline_body_fits MAX_BODY_LEN c2
                ltac:(unfold MAX_BODY_LEN; lia)) as Hfit.
  assert (Eb : exists text,
             request (read_multiline_body MAX_BODY_LEN c2)
             = set_body text (request c)).
  { unfold read_multiline_body.
    destruct (read_body_lines _ _ _ _ _) as [text more].
    exists text. unfold update, say, request in *. cbn. now rewrite Hr. }
  destruct Eb as [text Eb]. rewrite Eb in Hfit. cbn [set_body body] in Hfit.
  set (c3 := read_multiline_body MAX_BODY_LEN c2) in *.
  change (request (run_prog add_content_type c3))
    with (last_request (add_content_type (world c3))).
  assert (Hc : (0 <= header_count (request c))%Z) by apply Hs.
  destruct (add_content_type_shape (world c3)) as [E|[Hlt E]];
    rewrite E; fold (request c3) in *; rewrite Eb in *;
    cbn [set_header_count with_header set_body url method body header_count] in *.
  - split; [exact Hs|]. repeat (split; [reflexivity|]).
    split; [auto|]. split; [lia|]. intros [H|H]; contradiction.
  - split.
    { apply (headers_sound_counted Spec.CONTENT_TYPE_JSON (set_body text (request c)));
        [exact Hs | exact Hlt | discriminate | reflexivity]. }
    repeat (split; [reflexivity|]).
    split.
    { intros Hf.
      exact (slots_fit_with_header Spec.CONTENT_TYPE_JSON (request c) Hf
               (conj Hc Hlt) ltac:(cbn; unfold MAX_HEADER_LEN; lia)). }
    split; [lia|]. intros [H|H]; contradiction.
Qed.

Lemma ask_options_request input c :
  exists f t v,
    (f = 0 \/ f = 1)%Z /\ (v = 0 \/ v = 1)%Z /\
    request (ask_options input c)
    = set_verbose v (set_timeout t (set_follow_redirects f (request c))).
Proof.
  unfold ask_options.
  set (c1 := say _ c).
  pose proof (read_request 512 input c1) as Hr1.
  destruct (read 512 input c1) as [i1 c2]. cbn [snd] in Hr1.
  change (request c1) with (request c) in Hr1.
  set (c3 := say _ (update _ c2)).
  pose proof (read_request 512 i1 c3) as Hr2.
  destruct (read 512 i1 c3) as [i2 c4]. cbn [snd] in Hr2.
  set (c5 := say _ (update _ c4)).
  pose proof (read_request 512 i2 c5) as Hr3.
  destruct (read 512 i2 c5) as [i3 c6]. cbn [snd] in Hr3.
  exists (if not_no i1 then 1 else 0)%Z, (atol i2),
         (if says_yes i3 then 1 else 0)%Z.
  split; [destruct (not_no i1); auto|].
  split; [destruct (says_yes i3); auto|].
  unfold update at 1. unfold request at 1. cbn. fold (request c6).
  rewrite Hr3. unfold c5, say, update. unfold request at 1. cbn.
  fold (request c4). rewrite Hr2. unfold c3, say, update. unfold request at 1.
  cbn. fold (request c2). rewrite Hr1. reflexivity.
Qed.

(** X17: whatever is typed, and whatever the request was before, the request
    that [configure_request] leaves has a method that is not empty and has
    no lower-case letter, a URL and a method without a newline, a header
    count from 0 to [MAX_HEADERS], headers in use that are not empty and
    have no newline, an empty body when the method is [GET] or [DELETE],
    and the two yes/no options at 0 or 1. *)
Theorem configure_request_result (garbage : string) (c : Console) :
  method (request (configure_request garbage c)) <> "" /\
  upcase (method (request (configure_request garbage c)))
  = method (request (configure_request garbage c)) /\
  strchr (method (request (configure_request garbage c))) LF = None /\
  strchr (url (request (configure_request garbage c))) LF = None /\
  headers_sound (request (configure_request garbage c)) /\
  (method (request (configure_request garbage c)) = "GET" \/
   method (request (configure_request garbage c)) = "DELETE" ->
   body (request (configure_request garbage c)) = "") /\
  (follow_redirects (request (configure_request garbage c)) = 0 \/
   follow_redirects (request (configure_request garbage c)) = 1)%Z /\
  (verbose (request (configure_request garbage c)) = 0 \/
   verbose (request (configure_request garbage c)) = 1)%Z.
Proof.
  unfold configure_request.
  destruct (ask_url_and_method_request c) as (_ & _ & _ & U1 & M1 & M2 & M3 & _).
  set (c1 := ask_url_and_method c) in *.
  destruct (ask_headers_request garbage c1) as (S2 & U2 & M4 & _).
  destruct (ask_headers garbage c1) as [i2 c2]. cbn [snd] in *.
  destruct (ask_body_request i2 c2 S2) as (S3 & U3 & M5 & _ & _ & B3).
  destruct (ask_body i2 c2) as [i3 c3]. cbn [snd] in *.
  destruct (ask_options_request i3 c3) as (f & t & v & Hf & Hv & ->).
  cbn [set_verbose set_timeout set_follow_redirects method url body
       follow_redirects verbose].
  rewrite M5, M4, U3, U2.
  repeat (split; [assumption|]).
  split; [rewrite <- M4; exact B3|].
  split; assumption.
Qed.

(** X18: [configure_request] keeps every string of the request within the
    array that holds it: when the URL, the method, the header slots and the
    body fit their arrays before, with the header count within the header
    array, they do after, whatever is typed. *)
Theorem configure_request_within_buffers (garbage : string) (c : Console) :
  within_buffers (request c) ->
  within_buffers (request (configure_request garbage c)).
Proof.
  intros (Hu & Hm & Hh & Hl & Hc & Hb). unfold configure_request.
  destruct (ask_url_and_method_request c) as (E1 & _ & _ & _ & _ & _ & _ & U1 & M1).
  set (c1 := ask_url_and_method c) in *.
  destruct (ask_headers_request garbage c1) as (S2 & U2 & M2 & _ & F2).
  destruct (ask_headers garbage c1) as [i2 c2]. cbn [snd] in *.
  destruct (ask_body_request i2 c2 S2) as (S3 & U3 & M3 & F3 & B3 & _).
  destruct (ask_body i2 c2) as [i3 c3]. cbn [snd] in *.
  destruct (ask_options_request i3 c3) as (f & t & v & _ & _ & ->).
  destruct F3 as [F3a F3b]; [apply F2; unfold slots_fit; rewrite E1; auto|].
  unfold within_buffers.
  cbn [set_verbose set_timeout set_follow_redirects method url body
       headers header_count].
  rewrite U3, U2, M3, M2.
  split; [auto|]. split; [auto|]. split; [exact F3a|]. split; [exact F3b|].
  split; [apply S3 | exact B3].
Qed.

Lemma configure_request_within_buffers_witness :
  within_buffers
    (request
       (configure_request "garbage"
          {| world := {| last_request := initial_request; stdout := "" |};
             stdin := "http://localhost:8080/items" ++ nl ++ "post" ++ nl
                      ++ "n" ++ nl ++ "n" ++ nl ++ nl ++ "5" ++ nl ++ "n" ++ nl |})).
Proof.
  apply (configure_request_within_buffers "garbage"
           {| world := {| last_request := initial_request; stdout := "" |};
              stdin := "http://localhost:8080/items" ++ nl ++ "post" ++ nl
                       ++ "n" ++ nl ++ "n" ++ nl ++ nl ++ "5" ++ nl ++ "n" ++ nl |}).
  unfold within_buffers, initial_request, MAX_URL_LEN, MAX_HEADER_LEN,
    MAX_HEADERS, MAX_BODY_LEN. cbn.
  repeat split; try lia. constructor.
Defined.

(** ** What is typed is what is stored *)








